(** * Language detection (AJ.py): a shallow embedding and its properties

    The development follows [src/AJ.py]:
    - [Py]       the fragment of Python the program relies on: exception
                 classes and [isinstance], results that may raise, a monad
                 for code that performs observable I/O, [try]/[except];
    - [Pathlib]  [PurePath.name] and [PurePath.suffix];
    - [Codec]    [bytes.decode('utf-8')] in strict mode;
    - [Float]    the arithmetic of Python floats that the percentages use;
    - [AJ]       [detect_with_linguist], [pygments_language_detect] and the
                 detection step of [main_menu], then the properties.

    The pygments entry points ([guess_lexer_for_filename],
    [get_lexer_for_filename]) and [json.loads] belong to third-party or
    standard libraries; the program is parameterised over them. *)

From Stdlib Require Import ZArith NArith QArith Qround Qabs Qpower Lqa.
From Stdlib Require Import Strings.Byte Strings.Ascii Strings.String.
From stdpp Require Import gmap strings list fin_maps pretty sorting.

Local Open Scope string_scope.
Local Open Scope list_scope.

(* ===================================================================== *)
(** ** Python: exceptions, results, effects *)
(* ===================================================================== *)

Module Py.

(** The exception classes that occur in the program or can reach its
    handlers, with the inheritance of CPython and pygments. *)
Inductive cls :=
  | Exception
  | ArithmeticError | ZeroDivisionError | OverflowError
  | ValueError | UnicodeError | UnicodeDecodeError | JSONDecodeError
  | ClassNotFound                       (* pygments.util, a ValueError *)
  | OSError | FileNotFoundError | PermissionError
  | SubprocessError | CalledProcessError | TimeoutExpired.

#[global] Instance cls_eq_dec : EqDecision cls.
Proof. solve_decision. Defined.

Definition base (c : cls) : option cls :=
  match c with
  | Exception => None
  | ArithmeticError | ValueError | OSError | SubprocessError => Some Exception
  | ZeroDivisionError | OverflowError => Some ArithmeticError
  | UnicodeError | JSONDecodeError | ClassNotFound => Some ValueError
  | UnicodeDecodeError => Some UnicodeError
  | FileNotFoundError | PermissionError => Some OSError
  | CalledProcessError | TimeoutExpired => Some SubprocessError
  end.

(** [issubclass c d], following [base] upwards; the hierarchy has depth 4. *)
Fixpoint issubclass_upto (fuel : nat) (c d : cls) : bool :=
  bool_decide (c = d) ||
  match fuel with
  | O => false
  | S fuel' =>
      match base c with
      | Some b => issubclass_upto fuel' b d
      | None => false
      end
  end.

Definition issubclass : cls → cls → bool := issubclass_upto 4.

(** A raised exception: its class and [str(e)]. *)
Record exn := mk_exn { exn_class : cls; exn_str : string }.

Definition isinstance (e : exn) (c : cls) : bool := issubclass (exn_class e) c.
Arguments isinstance : simpl never.

(** The outcome of evaluating an expression. *)
Inductive res (A : Type) :=
  | Ret (a : A)
  | Raise (e : exn).
Arguments Ret {A} a.
Arguments Raise {A} e.

(** What the program does to the outside world, in order. *)
Inductive event :=
  | EvOpen (file : list string)            (* open(file, 'rb') *)
  | EvRead (file : list string) (n : N)    (* f.read(n) *)
  | EvRun (argv : list string)             (* subprocess.run(argv, ...) *)
  | EvPrint (line : string).               (* print(line) *)

Definition trace := list event.

(** Statements: they extend the trace and either complete or raise. *)
Definition M (A : Type) : Type := trace → res A * trace.

Definition ret {A} (a : A) : M A := λ tr, (Ret a, tr).
Definition raise {A} (e : exn) : M A := λ tr, (Raise e, tr).
Definition bind {A B} (m : M A) (k : A → M B) : M B :=
  λ tr, match m tr with
        | (Ret a, tr') => k a tr'
        | (Raise e, tr') => (Raise e, tr')
        end.
Definition lift {A} (r : res A) : M A := λ tr, (r, tr).
Definition emit (ev : event) : M unit := λ tr, (Ret (), tr ++ [ev]).
Definition print (line : string) : M unit := emit (EvPrint line).

#[global] Instance M_ret : MRet M := @ret.
#[global] Instance M_bind : MBind M := λ A B k m, bind m k.

(** [try: body  except c1 [as e]: h1  except c2 [as e]: h2 ...]: the first
    clause whose class the exception is an instance of handles it; an
    exception raised inside a handler is not offered to the other clauses. *)
Fixpoint select_clause {A} (e : exn) (clauses : list (cls * (exn → M A)))
  : option (M A) :=
  match clauses with
  | [] => None
  | (c, h) :: rest => if isinstance e c then Some (h e) else select_clause e rest
  end.

Definition try_except {A} (body : M A) (clauses : list (cls * (exn → M A))) : M A :=
  λ tr, match body tr with
        | (Ret a, tr') => (Ret a, tr')
        | (Raise e, tr') =>
            match select_clause e clauses with
            | Some h => h tr'
            | None => (Raise e, tr')
            end
        end.

(** [for x in xs: s = body(x, s)], with the loop-carried variables [s]. *)
Fixpoint for_each {A S} (body : A → S → M S) (xs : list A) (s : S) : M S :=
  match xs with
  | [] => ret s
  | x :: xs' => s' ← body x s; for_each body xs' s'
  end.

(** [{k: f(k, v) for k, v in d.items()}] where [f] may raise. *)
Definition dict_comprehension {V W} (f : string → V → res W) (d : gmap string V)
  : res (gmap string W) :=
  map_fold (λ k v acc,
              match acc with
              | Ret r => match f k v with
                         | Ret w => Ret (<[k:=w]> r)
                         | Raise e => Raise e
                         end
              | Raise e => Raise e
              end) (Ret ∅) d.

End Py.

(* ===================================================================== *)
(** ** pathlib: the final component of a path and its suffix *)
(* ===================================================================== *)

Module Pathlib.

(** A path as its components; [name] is the last one. *)
Definition path := list string.

Definition name (p : path) : string := default "" (last p).

(** [s.rfind('.')]: the index of the last dot. *)
Fixpoint rfind_dot (s : string) : option nat :=
  match s with
  | EmptyString => None
  | String c rest =>
      match rfind_dot rest with
      | Some i => Some (S i)
      | None => if bool_decide (c = "."%char) then Some 0 else None
      end
  end.

Fixpoint drop_chars (n : nat) (s : string) : string :=
  match n, s with
  | O, _ => s
  | S n', String _ rest => drop_chars n' rest
  | S _, EmptyString => EmptyString
  end.

(** [PurePath.suffix] (CPython 3.8 to 3.12):
    [i = name.rfind('.'); name[i:] if 0 < i < len(name) - 1 else ''].
    The comparison is on integers, so [len(name) - 1] may be [-1]. *)
Definition suffix_of_name (nm : string) : string :=
  match rfind_dot nm with
  | Some i =>
      if bool_decide (0 < Z.of_nat i < Z.of_nat (String.length nm) - 1)%Z
      then drop_chars i nm else ""
  | None => ""
  end.

Definition suffix (p : path) : string := suffix_of_name (name p).

End Pathlib.

(* ===================================================================== *)
(** ** codecs: strict UTF-8 decoding *)
(* ===================================================================== *)

Module Codec.

Local Open Scope N_scope.

Definition between (lo hi b : N) : bool := (lo <=? b) && (b <=? hi).
Definition continuation (b : N) : bool := between 0x80 0xBF b.
Definition low6 (b : N) : N := N.land b 0x3F.

(** [bytes.decode('utf-8')]: the code points, or [None] where CPython raises
    [UnicodeDecodeError]. Overlong forms, surrogates and values above
    U+10FFFF are rejected through the range of the second byte. *)
Fixpoint utf8_decode (bs : list byte) : option (list N) :=
  match bs with
  | [] => Some []
  | b0 :: r0 =>
      let c0 := Byte.to_N b0 in
      if c0 <? 0x80 then
        cons c0 <$> utf8_decode r0
      else if between 0xC2 0xDF c0 then
        match r0 with
        | b1 :: r1 =>
            let c1 := Byte.to_N b1 in
            if continuation c1
            then cons (N.shiftl (N.land c0 0x1F) 6 + low6 c1) <$> utf8_decode r1
            else None
        | _ => None
        end
      else if between 0xE0 0xEF c0 then
        match r0 with
        | b1 :: b2 :: r2 =>
            let c1 := Byte.to_N b1 in
            let c2 := Byte.to_N b2 in
            let lo := if c0 =? 0xE0 then 0xA0 else 0x80 in
            let hi := if c0 =? 0xED then 0x9F else 0xBF in
            if between lo hi c1 && continuation c2
            then cons (N.shiftl (N.land c0 0x0F) 12 + N.shiftl (low6 c1) 6 + low6 c2)
                   <$> utf8_decode r2
            else None
        | _ => None
        end
      else if between 0xF0 0xF4 c0 then
        match r0 with
        | b1 :: b2 :: b3 :: r3 =>
            let c1 := Byte.to_N b1 in
            let c2 := Byte.to_N b2 in
            let c3 := Byte.to_N b3 in
            let lo := if c0 =? 0xF0 then 0x90 else 0x80 in
            let hi := if c0 =? 0xF4 then 0x8F else 0xBF in
            if between lo hi c1 && continuation c2 && continuation c3
            then cons (N.shiftl (N.land c0 0x07) 18 + N.shiftl (low6 c1) 12
                       + N.shiftl (low6 c2) 6 + low6 c3)
                   <$> utf8_decode r3
            else None
        | _ => None
        end
      else None
  end.

(** [content.decode('utf-8')] as an expression. *)
Definition decode (bs : list byte) : Py.res (list N) :=
  match utf8_decode bs with
  | Some text => Py.Ret text
  | None => Py.Raise (Py.mk_exn Py.UnicodeDecodeError "invalid utf-8")
  end.

End Codec.

(* ===================================================================== *)
(** ** float: binary64 arithmetic on the values it represents *)
(* ===================================================================== *)

(** A Python float is an IEEE 754 binary64 number. Each finite one is a
    rational, and every operation returns the representable number nearest
    to the exact result, ties going to the even significand. The exponent
    range is left unbounded: the quotients of file counts that occur here
    are far from the subnormal numbers and from overflow. *)
Module Float.

Local Open Scope Q_scope.

(** The integer nearest to [q], ties to even. *)
Definition half_even (q : Q) : Z :=
  let f := Qfloor q in
  match Qcompare (q - inject_Z f) (1 # 2) with
  | Lt => f
  | Gt => (f + 1)%Z
  | Eq => if Z.even f then f else (f + 1)%Z
  end.

(** [floor(log2 q)] for [0 < q]. *)
Definition ilog2 (q : Q) : Z :=
  let d := (Z.log2 (Qnum q) - Z.log2 (Zpos (Qden q)))%Z in
  if Qle_bool (2 ^ d) q then d else (d - 1)%Z.

(** Rounding to 53 significant bits: [q] is scaled into [2^52, 2^53),
    rounded to an integer and scaled back. *)
Definition RN (q : Q) : Q :=
  if Qeq_bool q 0 then 0
  else let e := (ilog2 (Qabs q) - 52)%Z in
       inject_Z (half_even (q / 2 ^ e)) * 2 ^ e.

(** [a / b] on integers: the quotient, correctly rounded. *)
Definition true_divide (a b : Z) : Q := RN (inject_Z a / inject_Z b).

(** [x * y] *)
Definition multiply (x y : Q) : Q := RN (x * y).

(** [round(x, 1)]: the decimal with one digit after the point nearest to
    the exact value of [x], ties to even, then the float nearest to that
    decimal. *)
Definition round1 (x : Q) : Q := RN (inject_Z (half_even (x * 10)) / 10).

(** Half a unit in the last place, relative to the value: [2^-53]. *)
Definition unit_roundoff : Q := 1 # 9007199254740992.

End Float.

(* ===================================================================== *)
(** ** AJ.py *)
(* ===================================================================== *)

Module AJ.
Import Py Pathlib.
Local Open Scope Z_scope.

(** *** The file system as the program observes it *)

(** What [open(file, 'rb')] followed by [f.read(n)] does on a regular file. *)
Inductive io :=
  | OpenFails (e : exn)          (* open raises: permission denied, vanished *)
  | ReadFails (e : exn)          (* open succeeds, read raises *)
  | Bytes (content : list byte). (* the whole content of the file *)

(** A tree of files and directories in which every [stat] succeeds, the
    children of a directory in the order in which it lists them;
    [is_file()] holds of [Regular] nodes only. The entries on which [stat]
    raises come with [Stat.node] below. *)
#[warnings="-register-all"]
Inductive node :=
  | Regular (d : io)
  | Directory (children : list (string * node)).

(** [path.rglob('*')]: every entry below the path, directories included.
    CPython 3.11 yields all the entries of a directory, then goes down into
    its subdirectories one after the other; on a path that is not a
    directory it yields nothing. *)
Fixpoint rglob (p : path) (n : node) : list (path * node) :=
  match n with
  | Regular _ => []
  | Directory children =>
      ((λ c : string * node, (p ++ [c.1], c.2)) <$> children)
      ++ (fix below (cs : list (string * node)) : list (path * node) :=
            match cs with
            | [] => []
            | (nm, c) :: cs' => rglob (p ++ [nm]) c ++ below cs'
            end) children
  end.

(** [f.read(n)] on a file just opened: at most the first [n] bytes. *)
Definition read_at_most (n : N) (content : list byte) : list byte :=
  take (N.to_nat n) content.
Arguments read_at_most : simpl never.

(** [with open(file, 'rb') as f: content = f.read(n)] *)
Definition open_rb_read (file : path) (d : io) (n : N) : M (list byte) :=
  emit (EvOpen file);;
  match d with
  | OpenFails e => raise e
  | ReadFails e => emit (EvRead file n);; raise e
  | Bytes content => emit (EvRead file n);; mret (read_at_most n content)
  end.

(** *** Values of the result dictionary *)

(** The program stores the integer [100] in single-file mode and a float
    in folder mode. *)
Inductive number :=
  | Int (z : Z)
  | Float (x : Q).

Definition real_value (x : number) : Q :=
  match x with
  | Int z => inject_Z z
  | Float x => x
  end.

(** [round(v / total_files * 100, 1)] *)
Definition percent (v total_files : Z) : Q :=
  Float.round1 (Float.multiply (Float.true_divide v total_files) 100).

(** The same expression where it is evaluated: true division raises on a
    zero divisor. *)
Definition percentage (total_files : Z) (v : Z) : res number :=
  if bool_decide (total_files = 0)
  then Raise (mk_exn ZeroDivisionError "division by zero")
  else Ret (Float (percent v total_files)).

(** [language_stats[k] += 1] on a [defaultdict(int)]. *)
Definition count (language_stats : gmap string Z) (k : string) : Z :=
  default 0 (language_stats !! k).

Definition increment (k : string) (language_stats : gmap string Z) : gmap string Z :=
  <[k := count language_stats k + 1]> language_stats.

(** The loop-carried variables of the folder walk. *)
Record locals := mk_locals { language_stats : gmap string Z; total_files : Z }.

Definition binary_extensions : gset string :=
  {[ ".deb"; ".bin"; ".exe"; ".zip"; ".tar"; ".gz"; ".png"; ".jpg" ]}.

Section Detection.

(** pygments: the name of the lexer found, or the exception raised. *)
Variable guess_lexer_for_filename : string → list N → res string.
Variable get_lexer_for_filename : string → res string.

(** Lines 90-104 and 114-128 are the same statements up to the last one of
    each branch, which settles the label found: [return {label: 100}] for a
    single file, [language_stats[label] += 1] in the folder walk. *)
Section Resolve.
Context {A : Type} (settle : string → A).

(** Lines 95-100 and 119-124: the guess from name and text, then the
    lookup by name alone. *)
Definition from_text (fn : string) (text : list N) : M A :=
  try_except
    (lexer ← lift (guess_lexer_for_filename fn text);
     mret (settle lexer))
    [(ClassNotFound, λ _,
        lexer ← lift (get_lexer_for_filename fn);
        mret (settle lexer))].

(** Lines 93-102 and 117-126. *)
Definition from_bytes (fn : string) (content : list byte) : M A :=
  try_except
    (text ← lift (Codec.decode content);
     from_text fn text)
    [(UnicodeDecodeError, λ _, mret (settle "Binary"))].

(** Lines 90-104 and 114-128. *)
Definition from_file (file : path) (d : io) : M A :=
  try_except
    (content ← open_rb_read file d 8192;
     from_bytes (name file) content)
    [(Exception, λ _, mret (settle "Error"))].
End Resolve.

Definition single (label : string) : gmap string number := {[ label := Int 100 ]}.

(** Lines 86-104. *)
Definition detect_single_file (file : path) (d : io) : M (gmap string number) :=
  if bool_decide (suffix file ∈ binary_extensions)
  then mret (single "Binary")
  else from_file single file d.

(** Lines 108-128: the body of the [for file in path.rglob('*')] loop, on
    an entry of a tree in which every [stat] succeeds; [Stat.visit] has the
    entries on which [is_file()] raises. *)
Definition visit (entry : path * node) (s : locals) : M locals :=
  let (file, n) := entry in
  match n with
  | Regular d =>
      let total := total_files s + 1 in
      if bool_decide (suffix file ∈ binary_extensions)
      then mret (mk_locals (increment "Binary" (language_stats s)) total)
      else from_file (λ label, mk_locals (increment label (language_stats s)) total)
             file d
  | Directory _ => mret s
  end.

(** Lines 130-132. *)
Definition breakdown (s : locals) : M (gmap string number) :=
  if bool_decide (total_files s > 0)%Z
  then lift (dict_comprehension (λ _ v, percentage (total_files s) v)
               (language_stats s))
  else mret ∅.

Definition walk (p : path) (n : node) : M locals :=
  for_each visit (rglob p n) (mk_locals ∅ 0).

(** [pygments_language_detect(path)], given the node found at [path], in
    a tree in which every [stat] succeeds; [Stat.pygments_language_detect]
    has the paths on which [is_file()] raises. *)
Definition pygments_language_detect (p : path) (n : node)
  : M (gmap string number) :=
  match n with
  | Regular d => detect_single_file p d
  | Directory _ => s ← walk p n; breakdown s
  end.

(** *** The external tool and the detection step of the menu *)

(** What [subprocess.run(argv, capture_output=True, text=True, check=True,
    timeout=30)] does: it raises ([FileNotFoundError] when the program is
    absent, [CalledProcessError] on a non-zero exit status, [TimeoutExpired]
    after 30 seconds) or completes with the captured standard output. *)
Inductive run :=
  | RunRaises (e : exn)
  | Completed (stdout : string).

Definition subprocess_run (argv : list string) (o : run) : M string :=
  emit (EvRun argv);;
  match o with
  | RunRaises e => raise e
  | Completed stdout => mret stdout
  end.

(** [str(path)] *)
Definition str (p : path) : string := String.concat "/" p.

Definition newline : string := String (ascii_of_nat 10) EmptyString.

Definition linguist_argv (repo_path : path) : list string :=
  ["github-linguist"; "--breakdown"; "--json"; str repo_path].

(** The objects [json.loads] returns, with their truth value [bool(x)]. *)
Variable value : Type.
Variable truth : value → bool.
Variable json_loads : string → res value.

(** Lines 59-76; [None] is Python's [None]. *)
Definition detect_with_linguist (repo_path : path) (o : run) : M (option value) :=
  try_except
    (stdout ← subprocess_run (linguist_argv repo_path) o;
     v ← lift (json_loads stdout);
     mret (Some v))
    [(FileNotFoundError, λ _,
        print "ℹ️ github-linguist not found. Using fallback methods...";;
        mret None);
     (Exception, λ e,
        print ("⚠️ Linguist error: " +:+ exn_str e);;
        print (newline +:+ "❌ git not found, Using fallback methods...");;
        mret None)].

(** The value of [results] in [main_menu]. *)
Inductive results :=
  | FromLinguist (r : option value)
  | FromPygments (d : gmap string number).

(** [not results] *)
Definition falsy (r : option value) : bool :=
  match r with
  | None => true
  | Some v => negb (truth v)
  end.

(** Lines 167-171 and 180-184 of [main_menu]: the external tool first, the
    internal detection if it gave nothing. *)
Definition main_menu_detect (p : path) (n : node) (o : run) : M results :=
  r ← detect_with_linguist p o;
  if falsy r
  then d ← pygments_language_detect p n; mret (FromPygments d)
  else mret (FromLinguist r).

End Detection.

(** *** Observations the statements below are phrased with *)

(** [n.is_file()] *)
Definition is_file (n : node) : bool :=
  match n with
  | Regular _ => true
  | Directory _ => false
  end.

(** The read of the file raises. *)
Definition read_fails (d : io) : bool :=
  match d with
  | OpenFails _ | ReadFails _ => true
  | Bytes _ => false
  end.

(** The events of lines 91-92 (115-116) on a file. *)
Definition read_events (file : path) (d : io) : list event :=
  match d with
  | OpenFails _ => [EvOpen file]
  | ReadFails _ | Bytes _ => [EvOpen file; EvRead file 8192%N]
  end.

(** [sum(language_stats.values())] *)
Definition sum_counts (stats : gmap string Z) : Z :=
  map_fold (λ _ v acc, v + acc) 0 stats.

(** The sum of the values of a result, as exact numbers. *)
Definition sum_values (result : gmap string number) : Q :=
  map_fold (λ _ x acc, (real_value x + acc)%Q) 0%Q result.

(** The regular files among the entries of a walk. *)
Definition regular_files (entries : list (path * node)) : list (path * node) :=
  List.filter (λ entry, is_file entry.2) entries.

(** *** What the detection comes to, file by file *)

Section Labels.

Variable guess_lexer_for_filename : string → list N → res string.
Variable get_lexer_for_filename : string → res string.

(** What lines 95-100 come to on a decoded text: a lexer name, or the
    exception that leaves them. *)
Definition text_outcome (fn : string) (text : list N) : res string :=
  match guess_lexer_for_filename fn text with
  | Ret lexer => Ret lexer
  | Raise e => if isinstance e ClassNotFound
               then get_lexer_for_filename fn else Raise e
  end.

(** What lines 93-102 come to on the bytes read. *)
Definition bytes_outcome (fn : string) (content : list byte) : res string :=
  match Codec.utf8_decode content with
  | None => Ret "Binary"
  | Some text =>
      match text_outcome fn text with
      | Ret lexer => Ret lexer
      | Raise e => if isinstance e UnicodeDecodeError then Ret "Binary" else Raise e
      end
  end.

(** The label of a file that is read (lines 90-104). *)
Definition read_label (file : path) (d : io) : string :=
  match d with
  | OpenFails _ | ReadFails _ => "Error"
  | Bytes content =>
      match bytes_outcome (name file) (read_at_most 8192 content) with
      | Ret label => label
      | Raise _ => "Error"
      end
  end.

(** The label of a regular file (lines 87-104). *)
Definition label_of (file : path) (d : io) : string :=
  if bool_decide (suffix file ∈ binary_extensions) then "Binary"
  else read_label file d.

(** The labels of the regular files among the entries, in their order. *)
Fixpoint labels (entries : list (path * node)) : list string :=
  match entries with
  | [] => []
  | (file, Regular d) :: rest => label_of file d :: labels rest
  | (_, Directory _) :: rest => labels rest
  end.

(** The events of the walk over the entries. *)
Fixpoint walk_events (entries : list (path * node)) : list event :=
  match entries with
  | [] => []
  | (file, Regular d) :: rest =>
      (if bool_decide (suffix file ∈ binary_extensions) then []
       else read_events file d) ++ walk_events rest
  | (_, Directory _) :: rest => walk_events rest
  end.

End Labels.

(** [language_stats] after [language_stats[label] += 1] for each label. *)
Definition tally (ls : list string) (stats : gmap string Z) : gmap string Z :=
  foldl (λ stats label, increment label stats) stats ls.

(** How often a label occurs. *)
Definition occurrences (label : string) (ls : list string) : Z :=
  Z.of_nat (length (List.filter (λ l, bool_decide (l = label)) ls)).

(** *** Paths on which [stat] fails *)

(** [is_file()] asks [stat] and passes on every [OSError] other than those
    of a missing path (ENOENT, ENOTDIR, EBADF, ELOOP). An entry of a
    directory that may be listed but not searched is such a case: [stat]
    raises [PermissionError]. The calls of lines 85 and 108 are outside
    every [try], so the error leaves [pygments_language_detect]. The trees
    below add such entries to those of [node]: [rglob] yields them like any
    other entry and finds nothing below them. *)
Module Stat.

#[warnings="-register-all"]
Inductive node :=
  | Fails (e : exn)              (* stat raises e *)
  | Regular (d : io)
  | Directory (children : list (string * node)).

(** [path.rglob('*')], in the order of CPython 3.11. *)
Fixpoint rglob (p : path) (n : node) : list (path * node) :=
  match n with
  | Fails _ | Regular _ => []
  | Directory children =>
      ((λ c : string * node, (p ++ [c.1], c.2)) <$> children)
      ++ (fix below (cs : list (string * node)) : list (path * node) :=
            match cs with
            | [] => []
            | (nm, c) :: cs' => rglob (p ++ [nm]) c ++ below cs'
            end) children
  end.

(** A tree in which every [stat] succeeds. *)
Fixpoint of_node (n : AJ.node) : node :=
  match n with
  | AJ.Regular d => Regular d
  | AJ.Directory children =>
      Directory ((fix each (cs : list (string * AJ.node)) : list (string * node) :=
                    match cs with
                    | [] => []
                    | (nm, c) :: cs' => (nm, of_node c) :: each cs'
                    end) children)
  end.

Section Detection.

Variable guess_lexer_for_filename : string → list N → res string.
Variable get_lexer_for_filename : string → res string.

(** Lines 108-128: the body of the loop, with [file.is_file()] first. *)
Definition visit (entry : path * node) (s : locals) : M locals :=
  let (file, n) := entry in
  match n with
  | Fails e => raise e
  | Regular d =>
      let total := total_files s + 1 in
      if bool_decide (suffix file ∈ binary_extensions)
      then mret (mk_locals (increment "Binary" (language_stats s)) total)
      else from_file guess_lexer_for_filename get_lexer_for_filename
             (λ label, mk_locals (increment label (language_stats s)) total)
             file d
  | Directory _ => mret s
  end.

Definition walk (p : path) (n : node) : M locals :=
  for_each visit (rglob p n) (mk_locals ∅ 0).

(** [pygments_language_detect(path)], lines 78-132, with [path.is_file()]
    first. *)
Definition pygments_language_detect (p : path) (n : node)
  : M (gmap string number) :=
  match n with
  | Fails e => raise e
  | Regular d =>
      detect_single_file guess_lexer_for_filename get_lexer_for_filename p d
  | Directory _ => s ← walk p n; breakdown s
  end.

Variable value : Type.
Variable truth : value → bool.
Variable json_loads : string → res value.

(** Lines 167-171 and 180-184 of [main_menu]. *)
Definition main_menu_detect (p : path) (n : node) (o : run) : M (results value) :=
  r ← detect_with_linguist value json_loads p o;
  if falsy value truth r
  then d ← pygments_language_detect p n; mret (FromPygments value d)
  else mret (FromLinguist value r).

(** The first entry of the walk on which [stat] raises, if there is one. *)
Fixpoint failure (entries : list (path * node)) : option exn :=
  match entries with
  | [] => None
  | (_, Fails e) :: _ => Some e
  | _ :: rest => failure rest
  end.

(** The labels of the regular files among the entries before it, in their
    order. *)
Fixpoint labels (entries : list (path * node)) : list string :=
  match entries with
  | [] => []
  | (_, Fails _) :: _ => []
  | (file, Regular d) :: rest =>
      label_of guess_lexer_for_filename get_lexer_for_filename file d :: labels rest
  | (_, Directory _) :: rest => labels rest
  end.

(** The events of the walk over these entries. *)
Fixpoint walk_events (entries : list (path * node)) : list event :=
  match entries with
  | [] => []
  | (_, Fails _) :: _ => []
  | (file, Regular d) :: rest =>
      (if bool_decide (suffix file ∈ binary_extensions) then []
       else read_events file d) ++ walk_events rest
  | (_, Directory _) :: rest => walk_events rest
  end.

End Detection.

End Stat.

(** *** Printing the results *)

(** A dictionary is handed to [display_results] as its items in the order
    of iteration. *)

(** [x == 100] *)
Definition equals_100 (x : number) : bool := Qeq_bool (real_value x) 100.

(** [sorted(items, key=lambda x: x[1], reverse=True)]: by decreasing value,
    items of equal value staying in their original order. Every stable sort
    gives this list; here each item is put in front of the first of the
    later items that is not greater. *)
Fixpoint insert_by_value (item : string * number) (sorted : list (string * number))
  : list (string * number) :=
  match sorted with
  | [] => [item]
  | item' :: rest =>
      if Qle_bool (real_value item'.2) (real_value item.2)
      then item :: sorted
      else item' :: insert_by_value item rest
  end.

Definition sorted_by_value (items : list (string * number)) : list (string * number) :=
  foldr insert_by_value [] items.

(** The value of [a] is at least that of [b]. *)
Definition at_least (a b : string * number) : Prop :=
  (real_value b.2 <= real_value a.2)%Q.

(** The float nearest to a number. *)
Definition nearest_float (x : number) : Q :=
  match x with
  | Int z => Float.RN (inject_Z z)
  | Float x => x
  end.

(** The floats end below [2^1024]: an int whose nearest float would be
    [2^1024] or more has none. *)
Definition beyond_floats (x : number) : bool :=
  match x with
  | Int z => Qle_bool (2 ^ 1024) (Qabs (Float.RN (inject_Z z)))
  | Float _ => false
  end.

(** [float(x)], with which formatting a number by [.1f] begins: on an int
    beyond the floats it raises [OverflowError]. *)
Definition to_float (x : number) : res Q :=
  if beyond_floats x
  then Raise (mk_exn OverflowError "int too large to convert to float")
  else Ret (nearest_float x).

(** [format(x, '.1f')] on a float: the decimal with one digit after the
    point nearest to the exact value, ties to even. *)
Definition format_1f (x : Q) : string :=
  let tenths := Float.half_even (Qabs x * 10) in
  (if Qle_bool 0 x then "" else "-")
  +:+ pretty (tenths / 10) +:+ "." +:+ pretty (tenths mod 10).

Fixpoint spaces (n : nat) : string :=
  match n with
  | O => ""
  | S n' => " " +:+ spaces n'
  end.

(** [f"{x:>5.1f}"] on a float *)
Definition format_5_1f (x : Q) : string :=
  let digits := format_1f x in
  spaces (5 - String.length digits) +:+ digits.

(** Line 147, [print(f"{percent:>5.1f}% | {lang}")]. *)
Definition print_line (item : string * number) : M unit :=
  x ← lift (to_float item.2);
  print (format_5_1f x +:+ "% | " +:+ item.1).

(** What line 147 prints for an item within the floats. *)
Definition breakdown_line (item : string * number) : string :=
  format_5_1f (nearest_float item.2) +:+ "% | " +:+ item.1.

(** Lines 134-147. *)
Definition display_results (results : list (string * number)) : M unit :=
  match results with
  | [] => print "❌ No results could be generated"
  | (lang, x) :: _ =>
      if bool_decide (length results = 1%nat) && equals_100 x
      then print (newline +:+ "🔍 Language: " +:+ lang)
      else
        print (newline +:+ "📊 Language Breakdown:");;
        for_each (λ item _, print_line item) (sorted_by_value results) ()
  end.

(** *** Installing the dependencies *)

Section Installation.

(** [sys.executable], and what each [subprocess.run(cmd, check=True)] does. *)
Variable sys_executable : string.
Variable run_of : list string → run.

Definition system_deps : list (list string) :=
  [["sudo"; "apt-get"; "update"];
   ["sudo"; "apt-get"; "install"; "-y";
    "python3-dev"; "python3-pip"; "build-essential"; "ruby"; "ruby-dev"]].

Definition gem_deps : list (list string) :=
  [["sudo"; "gem"; "install"; "github-linguist"]].

Definition python_packages : list string :=
  ["pygit2"; "pygments>=2.15.1"; "pygments-github-lexers>=0.0.5";
   "charset-normalizer>=3.3.2"].

Definition pip_argv : list string :=
  [sys_executable; "-m"; "pip"; "install"; "--upgrade"] ++ python_packages.

(** [e.stderr.decode().strip() if e.stderr else str(e)]: the calls do not
    capture the output of the command, so [e.stderr] is [None]. *)
Definition error_text (e : exn) : string := exn_str e.

(** Lines 10-57. *)
Definition install_dependencies : M unit :=
  print (newline +:+ "⚙️ Installing dependencies...");;
  for_each (λ cmd _,
      try_except
        (subprocess_run cmd (run_of cmd);; mret ())
        [(CalledProcessError, λ e,
            print ("⚠️ System dependency error: " +:+ error_text e))])
    system_deps ();;
  for_each (λ cmd _,
      try_except
        (subprocess_run cmd (run_of cmd);; mret ())
        [(CalledProcessError, λ e,
            print ("⚠️ Ruby gem error: " +:+ error_text e);;
            print "Note: Some features may be limited without github-linguist")])
    gem_deps ();;
  try_except
    (subprocess_run pip_argv (run_of pip_argv);;
     print "✅ All dependencies installed successfully")
    [(CalledProcessError, λ e,
        print ("❌ Python package error: " +:+ error_text e))].

(** The commands in the order of the source. *)
Definition commands : list (list string) := system_deps ++ gem_deps ++ [pip_argv].

(** The command completes, or fails the way [check=True] reports. *)
Definition tolerated (o : run) : bool :=
  match o with
  | Completed _ => true
  | RunRaises e => isinstance e CalledProcessError
  end.

End Installation.

(** The line printed when [pip] has completed. *)
Definition success_message : string := "✅ All dependencies installed successfully".

(** The commands run, in order, among the events. *)
Fixpoint commands_run (evs : list event) : list (list string) :=
  match evs with
  | [] => []
  | EvRun argv :: rest => argv :: commands_run rest
  | _ :: rest => commands_run rest
  end.

(** *** A small lexer registry for examples

    It resolves a file name by its suffix alone, the way pygments' filename
    patterns [*.py], [*.sh] and [*.txt] do, and raises [ClassNotFound] for
    any other name. *)
Module Sample.

Definition lexers : list (string * string) :=
  [(".py", "Python"); (".sh", "Bash"); (".txt", "Text only")].

Fixpoint assoc (k : string) (l : list (string * string)) : option string :=
  match l with
  | [] => None
  | (k', v) :: l' => if bool_decide (k = k') then Some v else assoc k l'
  end.

Definition get_lexer_for_filename (fn : string) : res string :=
  match assoc (suffix_of_name fn) lexers with
  | Some lexer => Ret lexer
  | None => Raise (mk_exn ClassNotFound "no lexer for filename found")
  end.

Definition guess_lexer_for_filename (fn : string) (text : list N) : res string :=
  get_lexer_for_filename fn.

Definition detect := pygments_language_detect guess_lexer_for_filename get_lexer_for_filename.
Definition visit := visit guess_lexer_for_filename get_lexer_for_filename.

(** A [json.loads] that accepts nothing. *)
Definition json_loads (s : string) : res unit :=
  Raise (mk_exn JSONDecodeError "Expecting value").

Definition ascii_bytes (s : string) : list byte := list_byte_of_string s.

Definition denied : exn := mk_exn PermissionError "Permission denied".
Definition timed_out : exn := mk_exn TimeoutExpired "timed out after 30 seconds".

(** The first bytes of a PNG image, and a truncated euro sign. *)
Definition png_magic : list byte := [x89; x50; x4e; x47; x0d; x0a; x1a; x0a].
Definition half_euro : list byte := [xe2; x82].

Definition entries : list (string * node) :=
  [("main.py", Regular (Bytes (ascii_bytes "print(1)")));
   ("logo.png", Regular (Bytes png_magic));
   ("docs", Directory [("notes.txt", Regular (Bytes half_euro));
                       ("README", Regular (Bytes (ascii_bytes "hello")))]);
   ("empty", Directory [])].

Definition project : node := Directory entries.

(** A folder of three files, two of them Python. *)
Definition thirds : list (string * node) :=
  [("a.py", Regular (Bytes (ascii_bytes "print(1)")));
   ("b.py", Regular (Bytes (ascii_bytes "print(2)")));
   ("logo.png", Regular (Bytes png_magic))].

(** A machine where [apt-get] and [gem] fail and [pip] works. *)
Definition only_pip_works (cmd : list string) : run :=
  match cmd with
  | "sudo" :: _ =>
      RunRaises (mk_exn CalledProcessError "Command returned non-zero exit status 100.")
  | _ => Completed ""
  end.

(** A machine without [sudo]. *)
Definition no_sudo (cmd : list string) : run :=
  match cmd with
  | "sudo" :: _ =>
      RunRaises (mk_exn FileNotFoundError "[Errno 2] No such file or directory: 'sudo'")
  | _ => Completed ""
  end.

(** A guesser that knows no lexer, and one that fails on its own account. *)
Definition guess_nothing (fn : string) (text : list N) : res string :=
  Raise (mk_exn ClassNotFound "no lexer for filename found").

Definition guess_broken (fn : string) (text : list N) : res string :=
  Raise (mk_exn ZeroDivisionError "division by zero").

(** A [json.loads] that knows two texts; the value is the number of items
    of the list, which is false in a condition when it is zero. *)
Definition json_loads_lists (s : string) : res nat :=
  if bool_decide (s = "[]") then Ret 0%nat
  else if bool_decide (s = "[1]") then Ret 1%nat
  else Raise (mk_exn JSONDecodeError "Expecting value").

Definition nonempty (n : nat) : bool := negb (bool_decide (n = 0%nat)).

(** A folder with a subfolder that may be listed but not searched: [stat]
    raises on the entries of [private]. *)
Definition locked : Stat.node :=
  Stat.Directory
    [("main.py", Stat.Regular (Bytes (ascii_bytes "print(1)")));
     ("private", Stat.Directory [("key.txt", Stat.Fails denied)]);
     ("logo.png", Stat.Regular (Bytes png_magic))].

(** Folders in folders. *)
Definition nested : node :=
  Directory
    [("b", Directory [("y.sh", Regular (Bytes []));
                      ("sub", Directory [("deep.txt", Regular (Bytes []))])]);
     ("a", Directory [("k", Directory [("m.py", Regular (Bytes []))]);
                      ("n.py", Regular (Bytes []))]);
     ("c.txt", Regular (Bytes []));
     ("z.py", Regular (Bytes []))].

(** 8191 times the letter a. *)
Definition long_line : list byte := replicate (N.to_nat 8191) x61.

End Sample.

End AJ.

Example suffix_png : Pathlib.suffix ["home"; "img.png"] = ".png".
Proof. reflexivity. Qed.
Example suffix_targz : Pathlib.suffix_of_name "a.tar.gz" = ".gz".
Proof. reflexivity. Qed.
Example suffix_hidden : Pathlib.suffix_of_name ".png" = "".
Proof. reflexivity. Qed.
Example suffix_trailing : Pathlib.suffix_of_name "img." = "".
Proof. reflexivity. Qed.
Example decode_euro : Codec.utf8_decode [xe2; x82; xac] = Some [0x20AC%N].
Proof. reflexivity. Qed.
Example decode_truncated : Codec.utf8_decode [xe2; x82] = None.
Proof. reflexivity. Qed.

(** The floats CPython prints as 25.0, 33.3, 66.7, 0.1 and 12.2; the last
    two come from quotients that lie next to a tie of the decimal rounding. *)
Example percent_1_4 : Qred (AJ.percent 1 4) = (25 # 1)%Q.
Proof. vm_compute. reflexivity. Qed.
Example percent_1_3 : Qred (AJ.percent 1 3) = (2343279181116211 # 70368744177664)%Q.
Proof. vm_compute. reflexivity. Qed.
Example percent_2_3 : Qred (AJ.percent 2 3) = (4693595236650189 # 70368744177664)%Q.
Proof. vm_compute. reflexivity. Qed.
Example percent_1_2000 : Qred (AJ.percent 1 2000) = (3602879701896397 # 36028797018963968)%Q.
Proof. vm_compute. reflexivity. Qed.
Example percent_49_400 : Qred (AJ.percent 49 400) = (3433994715870003 # 281474976710656)%Q.
Proof. vm_compute. reflexivity. Qed.

(* ===================================================================== *)
(** ** Properties *)
(* ===================================================================== *)

Import Py Pathlib AJ.
Local Open Scope Z_scope.

(** *** Rounding errors *)

Section RoundingErrors.
Local Open Scope Q_scope.
Import Float.

Lemma half_even_close q :
  q - (1 # 2) <= inject_Z (half_even q) <= q + (1 # 2).
Proof.
  unfold half_even.
  pose proof (Qfloor_le q) as Hlo. pose proof (Qlt_floor q) as Hhi.
  rewrite inject_Z_plus in Hhi. change (inject_Z 1) with 1 in Hhi.
  destruct (Qcompare (q - inject_Z (Qfloor q)) (1 # 2)) eqn:Hcmp.
  - apply Qeq_alt in Hcmp.
    destruct (Z.even (Qfloor q)); rewrite ?inject_Z_plus; change (inject_Z 1) with 1; lra.
  - apply Qlt_alt in Hcmp. lra.
  - apply Qgt_alt in Hcmp. rewrite inject_Z_plus. change (inject_Z 1) with 1. lra.
Qed.

Lemma half_even_nonneg q : 0 <= q -> (0 <= half_even q)%Z.
Proof.
  intros Hq. pose proof (Qfloor_resp_le _ _ Hq) as Hfloor.
  change (Qfloor 0) with 0%Z in Hfloor.
  unfold half_even.
  destruct (Qcompare (q - inject_Z (Qfloor q)) (1 # 2)); [|lia..].
  destruct (Z.even (Qfloor q)); lia.
Qed.

Lemma two_power_pos e : 0 < 2 ^ e.
Proof. apply Qpower_0_lt. reflexivity. Qed.

(** [ilog2] does not overshoot, which is what bounds the rounding error. *)
Lemma ilog2_le q : 0 < q -> 2 ^ ilog2 q <= q.
Proof.
  intros Hq. unfold ilog2.
  set (a := Qnum q). set (b := Qden q).
  destruct (Qle_bool (2 ^ (Z.log2 a - Z.log2 (Z.pos b))) q) eqn:Hle.
  - by apply Qle_bool_iff.
  - clear Hle.
    assert (Ha : (0 < a)%Z) by (destruct q as [n d]; unfold Qlt in Hq; cbn in *; lia).
    pose proof (Z.log2_spec a Ha) as [Hla _].
    pose proof (Z.log2_spec (Z.pos b) ltac:(lia)) as [_ Hlb].
    pose proof (Z.log2_nonneg a) as Hna. pose proof (Z.log2_nonneg (Z.pos b)) as Hnb.
    set (la := Z.log2 a) in *. set (lb := Z.log2 (Z.pos b)) in *.
    assert (Hq' : q == inject_Z a / inject_Z (Z.pos b)).
    { destruct q as [n d]. apply Qmake_Qdiv. }
    assert (Hb : 0 < inject_Z (Z.pos b)).
    { change (inject_Z 0 < inject_Z (Z.pos b)). rewrite <- Zlt_Qlt. lia. }
    rewrite Hq'. apply Qle_shift_div_l; [done|].
    apply Qle_trans with (2 ^ (la - lb - 1) * 2 ^ (lb + 1)).
    + apply Qmult_le_l; [apply two_power_pos|].
      change 2 with (inject_Z 2). rewrite <- Zpower_Qpower by lia.
      rewrite <- Zle_Qle. lia.
    + rewrite <- Qpower_plus by done.
      replace (la - lb - 1 + (lb + 1))%Z with la by lia.
      change 2 with (inject_Z 2). rewrite <- Zpower_Qpower by lia.
      by rewrite <- Zle_Qle.
Qed.

Lemma Qabs_pos_eq q : 0 < q -> Qabs q = q.
Proof.
  destruct q as [n d]. unfold Qlt, Qabs. cbn. intros Hn. f_equal. lia.
Qed.

(** A rounding moves a value by at most [2^-53] of itself. *)
Lemma RN_close q :
  0 <= q -> q - q * unit_roundoff <= RN q <= q + q * unit_roundoff.
Proof.
  intros Hq. unfold RN, unit_roundoff.
  destruct (Qeq_bool q 0) eqn:Hzero.
  - apply Qeq_bool_iff in Hzero. lra.
  - apply Qeq_bool_neq in Hzero.
    assert (Hpos : 0 < q) by (apply Qle_lteq in Hq as [|Heq]; [done|by symmetry in Heq]).
    rewrite (Qabs_pos_eq q Hpos).
    pose proof (ilog2_le q Hpos) as Hlog.
    set (e := (ilog2 q - 52)%Z) in *.
    replace (ilog2 q) with (e + 52)%Z in Hlog by (subst e; lia).
    rewrite Qpower_plus in Hlog by done.
    assert (H52 : 2 ^ 52 == 4503599627370496) by reflexivity.
    rewrite H52 in Hlog.
    pose proof (two_power_pos e) as HP.
    set (P := 2 ^ e) in *.
    pose proof (half_even_close (q / P)) as [Hlo Hhi].
    set (h := inject_Z (half_even (q / P))) in *.
    assert (HsP : q / P * P == q) by (field; lra).
    apply (Qmult_le_compat_r _ _ P) in Hlo; [|lra].
    apply (Qmult_le_compat_r _ _ P) in Hhi; [|lra].
    set (hP := h * P) in *.
    assert (Hlo' : q - (1 # 2) * P <= hP).
    { eapply Qle_trans; [|exact Hlo]. rewrite <- HsP at 1. lra. }
    assert (Hhi' : hP <= q + (1 # 2) * P).
    { eapply Qle_trans; [exact Hhi|]. rewrite <- HsP at 2. lra. }
    lra.
Qed.

(** The percentage of a count is within a tenth of the exact one. *)
Lemma percent_close v t :
  (0 < v <= t)%Z ->
  inject_Z v * (100 / inject_Z t) - (1 # 10)
  <= percent v t
  <= inject_Z v * (100 / inject_Z t) + (1 # 10).
Proof.
  intros [Hv Hvt]. unfold percent, round1, multiply, true_divide.
  assert (Ht : 0 < inject_Z t).
  { change (inject_Z 0 < inject_Z t). rewrite <- Zlt_Qlt. lia. }
  assert (Hv' : 0 < inject_Z v).
  { change (inject_Z 0 < inject_Z v). rewrite <- Zlt_Qlt. lia. }
  assert (Hvt' : inject_Z v <= inject_Z t) by by rewrite <- Zle_Qle.
  set (r := inject_Z v / inject_Z t).
  assert (Hr0 : 0 < r) by (apply Qlt_shift_div_l; lra).
  assert (Hr1 : r <= 1) by (apply Qle_shift_div_r; lra).
  assert (Hexact : inject_Z v * (100 / inject_Z t) == 100 * r)
    by (subst r; field; lra).
  rewrite Hexact.
  pose proof (RN_close r ltac:(lra)) as Hx1. unfold unit_roundoff in Hx1.
  set (x1 := RN r) in *.
  pose proof (RN_close (x1 * 100) ltac:(lra)) as Hx2. unfold unit_roundoff in Hx2.
  set (x2 := RN (x1 * 100)) in *.
  pose proof (half_even_close (x2 * 10)) as Hk.
  pose proof (half_even_nonneg (x2 * 10) ltac:(lra)) as Hk0.
  rewrite Zle_Qle in Hk0. change (inject_Z 0) with 0 in Hk0.
  set (k := inject_Z (half_even (x2 * 10))) in *.
  assert (Hd : 10 * (k / 10) == k) by (field; lra).
  set (d := k / 10) in *.
  pose proof (RN_close d ltac:(lra)) as Hx3. unfold unit_roundoff in Hx3.
  set (x3 := RN d) in *.
  lra.
Qed.

(** [round(v / t * 100, 1)] is the float nearest to a decimal with one
    digit after the point, [k / 10], where [k] is a whole number nearest to
    the exact [1000 v / t], up to the errors of the division and of the
    multiplication before it. *)
Lemma percent_is_rounded v t :
  (0 < v <= t)%Z ->
  exists k : Z,
    (0 <= k <= 1000)%Z
    /\ percent v t = RN (inject_Z k / 10)
    /\ Qabs (inject_Z k - inject_Z v * (1000 / inject_Z t))
       <= (1 # 2) + (1 # 1000000000).
Proof.
  intros [Hv Hvt]. unfold percent, round1, multiply, true_divide.
  assert (Ht : 0 < inject_Z t).
  { change (inject_Z 0 < inject_Z t). rewrite <- Zlt_Qlt. lia. }
  assert (Hv' : 0 < inject_Z v).
  { change (inject_Z 0 < inject_Z v). rewrite <- Zlt_Qlt. lia. }
  assert (Hvt' : inject_Z v <= inject_Z t) by by rewrite <- Zle_Qle.
  assert (Hexact : inject_Z v * (1000 / inject_Z t) == 1000 * (inject_Z v / inject_Z t))
    by (field; lra).
  set (exact := inject_Z v * (1000 / inject_Z t)) in *.
  set (r := inject_Z v / inject_Z t) in *.
  assert (Hr0 : 0 < r) by (apply Qlt_shift_div_l; lra).
  assert (Hr1 : r <= 1) by (apply Qle_shift_div_r; lra).
  pose proof (RN_close r ltac:(lra)) as Hx1. unfold unit_roundoff in Hx1.
  set (x1 := RN r) in *.
  pose proof (RN_close (x1 * 100) ltac:(lra)) as Hx2. unfold unit_roundoff in Hx2.
  set (x2 := RN (x1 * 100)) in *.
  pose proof (half_even_close (x2 * 10)) as Hk.
  pose proof (half_even_nonneg (x2 * 10) ltac:(lra)) as Hk0.
  set (k := half_even (x2 * 10)) in *.
  exists k. split; [|split; [done|]].
  - split; [done|].
    assert (Hlt : inject_Z k < inject_Z 1001) by (change (inject_Z 1001) with 1001; lra).
    rewrite <- Zlt_Qlt in Hlt. lia.
  - apply Qabs_Qle_condition. split; lra.
Qed.

End RoundingErrors.

Section Properties.

Variable guess_lexer_for_filename : string → list N → res string.
Variable get_lexer_for_filename : string → res string.

#[local] Abbreviation from_text := (from_text guess_lexer_for_filename get_lexer_for_filename).
#[local] Abbreviation from_bytes := (from_bytes guess_lexer_for_filename get_lexer_for_filename).
#[local] Abbreviation from_file := (from_file guess_lexer_for_filename get_lexer_for_filename).

Lemma isinstance_Exception e : isinstance e Exception = true.
Proof. destruct e as [[] ?]; reflexivity. Qed.

(** Running the monad: one equation per construct. *)
Lemma run_bind {A B} (m : M A) (k : A → M B) tr :
  @mbind M _ A B k m tr = match m tr with
                | (Ret a, tr') => k a tr'
                | (Raise e, tr') => (Raise e, tr')
                end.
Proof. reflexivity. Qed.

Lemma run_ret {A} (a : A) tr : @mret M _ A a tr = (Ret a, tr).
Proof. reflexivity. Qed.

Lemma run_lift {A} (r : res A) tr : lift r tr = (r, tr).
Proof. reflexivity. Qed.

Lemma run_raise {A} e tr : @raise A e tr = (Raise e, tr).
Proof. reflexivity. Qed.

Lemma run_emit ev tr : emit ev tr = (Ret (), tr ++ [ev]).
Proof. reflexivity. Qed.

Lemma run_try_except {A} (body : M A) clauses tr :
  try_except body clauses tr
  = match body tr with
    | (Ret a, tr') => (Ret a, tr')
    | (Raise e, tr') =>
        match select_clause e clauses with
        | Some h => h tr'
        | None => (Raise e, tr')
        end
    end.
Proof. reflexivity. Qed.

Lemma select_cons {A} e c (h : exn → M A) rest :
  select_clause e ((c, h) :: rest)
  = if isinstance e c then Some (h e) else select_clause e rest.
Proof. reflexivity. Qed.

Lemma select_nil {A} e : @select_clause A e [] = None.
Proof. reflexivity. Qed.

#[local] Ltac run :=
  repeat (rewrite ?run_try_except, ?run_bind, ?run_lift, ?run_ret, ?run_raise,
            ?run_emit, ?select_cons, ?select_nil; cbn [fst snd]).

Lemma from_text_returns fn text :
  ∃ r : res string, ∀ A (settle : string → A) tr,
    from_text settle fn text tr
    = (match r with Ret l => Ret (settle l) | Raise e => Raise e end, tr).
Proof.
  exists (match guess_lexer_for_filename fn text with
          | Ret l => Ret l
          | Raise e => if isinstance e ClassNotFound
                       then get_lexer_for_filename fn else Raise e
          end).
  intros A settle tr. unfold AJ.from_text. run.
  destruct (guess_lexer_for_filename fn text) as [l|e]; run; [done|].
  destruct (isinstance e ClassNotFound); run; [|done].
  destruct (get_lexer_for_filename fn); by run.
Qed.

(** Once the bytes are read, the nested handlers settle on one label or let
    one exception through, whatever is done with the label. *)
Lemma from_bytes_returns fn content :
  ∃ r : res string, ∀ A (settle : string → A) tr,
    from_bytes settle fn content tr
    = (match r with Ret l => Ret (settle l) | Raise e => Raise e end, tr).
Proof.
  unfold AJ.from_bytes, Codec.decode.
  destruct (Codec.utf8_decode content) as [text|].
  - destruct (from_text_returns fn text) as [r Hr].
    exists (match r with
            | Ret l => Ret l
            | Raise e => if isinstance e UnicodeDecodeError
                         then Ret "Binary" else Raise e
            end).
    intros A settle tr. run. rewrite Hr.
    destruct r as [l|e]; run; [done|].
    destruct (isinstance e UnicodeDecodeError); by run.
  - exists (Ret "Binary"). intros A settle tr. by run.
Qed.

Lemma run_open_rb_read file d n tr :
  open_rb_read file d n tr
  = match d with
    | OpenFails e => (Raise e, tr ++ [EvOpen file])
    | ReadFails e => (Raise e, tr ++ [EvOpen file; EvRead file n])
    | Bytes content => (Ret (read_at_most n content), tr ++ [EvOpen file; EvRead file n])
    end.
Proof.
  unfold open_rb_read. run. destruct d; run; by rewrite <- ?app_assoc.
Qed.

(** Lines 90-104 and 114-128 always come to a label: nothing is raised. *)
Lemma from_file_returns file d :
  ∃ label : string, ∀ A (settle : string → A) tr,
    from_file settle file d tr = (Ret (settle label), tr ++ read_events file d).
Proof.
  unfold AJ.from_file.
  destruct d as [e|e|content].
  - exists "Error". intros. run. rewrite run_open_rb_read. run.
    rewrite isinstance_Exception. by run.
  - exists "Error". intros. run. rewrite run_open_rb_read. run.
    rewrite isinstance_Exception. by run.
  - destruct (from_bytes_returns (name file) (read_at_most 8192 content)) as [r Hr].
    exists (match r with Ret l => l | Raise _ => "Error" end).
    intros. run. rewrite run_open_rb_read. run. rewrite Hr.
    destruct r as [l|e]; run; [done|].
    rewrite isinstance_Exception. by run.
Qed.


(** The three ways through lines 90-104 that the claims single out. *)
Lemma from_file_read_fails {A} (settle : string → A) file d tr :
  read_fails d = true →
  from_file settle file d tr = (Ret (settle "Error"), tr ++ read_events file d).
Proof.
  intros Hd. unfold AJ.from_file. run. rewrite run_open_rb_read.
  destruct d as [e|e|content]; [| |done]; run;
    rewrite isinstance_Exception; by run.
Qed.

Lemma from_file_undecodable {A} (settle : string → A) file content tr :
  Codec.utf8_decode (read_at_most 8192 content) = None →
  from_file settle file (Bytes content) tr
  = (Ret (settle "Binary"), tr ++ [EvOpen file; EvRead file 8192%N]).
Proof.
  intros Hdec. unfold AJ.from_file, AJ.from_bytes, Codec.decode. run.
  rewrite run_open_rb_read. run. rewrite Hdec. by run.
Qed.

Lemma from_file_no_lexer {A} (settle : string → A) file content text e1 e2 tr :
  Codec.utf8_decode (read_at_most 8192 content) = Some text →
  guess_lexer_for_filename (name file) text = Raise e1 →
  exn_class e1 = ClassNotFound →
  get_lexer_for_filename (name file) = Raise e2 →
  exn_class e2 = ClassNotFound →
  from_file settle file (Bytes content) tr
  = (Ret (settle "Error"), tr ++ [EvOpen file; EvRead file 8192%N]).
Proof.
  intros Hdec Hguess Hc1 Hget Hc2.
  unfold AJ.from_file, AJ.from_bytes, AJ.from_text, Codec.decode. run.
  rewrite run_open_rb_read. run. rewrite Hdec. run. rewrite Hguess. run.
  replace (isinstance e1 ClassNotFound) with true
    by (unfold isinstance; by rewrite Hc1).
  run. rewrite Hget. run.
  replace (isinstance e2 UnicodeDecodeError) with false
    by (unfold isinstance; by rewrite Hc2).
  run. rewrite isinstance_Exception. by run.
Qed.

#[local] Abbreviation detect := (pygments_language_detect guess_lexer_for_filename get_lexer_for_filename).
#[local] Abbreviation visit := (visit guess_lexer_for_filename get_lexer_for_filename).

Lemma detect_regular file d :
  detect file (Regular d)
  = if bool_decide (suffix file ∈ binary_extensions)
    then mret (single "Binary") else from_file single file d.
Proof. reflexivity. Qed.

Lemma visit_regular file d s :
  visit (file, Regular d) s
  = if bool_decide (suffix file ∈ binary_extensions)
    then mret (mk_locals (increment "Binary" (language_stats s)) (total_files s + 1))
    else from_file (λ label, mk_locals (increment label (language_stats s))
                               (total_files s + 1)) file d.
Proof. reflexivity. Qed.

(** C1. A file whose suffix is one of the registered binary extensions is
    labelled 'Binary' without being opened or read: in single-file mode the
    result is [{'Binary': 100}], in the folder walk the file is counted
    under 'Binary', and in both the trace of I/O events is unchanged,
    whatever the file holds. *)
Theorem binary_extension_short_circuit file d s tr :
  suffix file ∈ binary_extensions →
  detect file (Regular d) tr = (Ret (single "Binary"), tr)
  ∧ visit (file, Regular d) s tr
    = (Ret (mk_locals (increment "Binary" (language_stats s)) (total_files s + 1)), tr).
Proof.
  intros Hbin. rewrite detect_regular, visit_regular.
  by rewrite (bool_decide_eq_true_2 _ Hbin).
Qed.

(** C2. A file whose suffix is not a binary extension and whose first
    8192 bytes (all of them, if it is shorter) are not valid UTF-8 is
    labelled 'Binary', whatever its suffix: [{'Binary': 100}] for a single
    file, one more under 'Binary' in the folder walk. *)
Theorem undecodable_content_is_binary file content s tr :
  suffix file ∉ binary_extensions →
  Codec.utf8_decode (read_at_most 8192 content) = None →
  detect file (Regular (Bytes content)) tr
  = (Ret (single "Binary"), tr ++ [EvOpen file; EvRead file 8192%N])
  ∧ visit (file, Regular (Bytes content)) s tr
    = (Ret (mk_locals (increment "Binary" (language_stats s)) (total_files s + 1)),
       tr ++ [EvOpen file; EvRead file 8192%N]).
Proof.
  intros Hext Hdec. rewrite detect_regular, visit_regular.
  rewrite (bool_decide_eq_false_2 _ Hext).
  by rewrite !from_file_undecodable.
Qed.

(** Where the guess succeeds, its lexer name is the label. *)
Lemma guessed_label_is_returned file content text lexer tr :
  suffix file ∉ binary_extensions →
  Codec.utf8_decode (read_at_most 8192 content) = Some text →
  guess_lexer_for_filename (name file) text = Ret lexer →
  detect file (Regular (Bytes content)) tr
  = (Ret (single lexer), tr ++ [EvOpen file; EvRead file 8192%N]).
Proof.
  intros Hext Hdec Hguess. rewrite detect_regular, (bool_decide_eq_false_2 _ Hext).
  unfold AJ.from_file, AJ.from_bytes, AJ.from_text, Codec.decode. run.
  rewrite run_open_rb_read. run. rewrite Hdec. run. rewrite Hguess. by run.
Qed.

Lemma count_increment k label (stats : gmap string Z) :
  count (increment label stats) k
  = count stats k + (if bool_decide (k = label) then 1 else 0).
Proof.
  unfold count, increment. case_bool_decide as Hk.
  - subst k. by rewrite lookup_insert_eq.
  - rewrite lookup_insert_ne by done. lia.
Qed.

(** C3, as the code has it. For a decodable text file on which
    [guess_lexer_for_filename] raises [ClassNotFound] and
    [get_lexer_for_filename] raises [ClassNotFound] too, the label is
    'Error' and not 'Unknown': the second exception is absorbed by the
    enclosing [except Exception]. The result of the single file has no key
    'Unknown', the walk leaves the count of 'Unknown' as it was, and
    nothing is raised to the caller. *)
Theorem no_lexer_is_error file content text e1 e2 s tr :
  suffix file ∉ binary_extensions →
  Codec.utf8_decode (read_at_most 8192 content) = Some text →
  guess_lexer_for_filename (name file) text = Raise e1 →
  exn_class e1 = ClassNotFound →
  get_lexer_for_filename (name file) = Raise e2 →
  exn_class e2 = ClassNotFound →
  detect file (Regular (Bytes content)) tr
  = (Ret (single "Error"), tr ++ [EvOpen file; EvRead file 8192%N])
  ∧ visit (file, Regular (Bytes content)) s tr
    = (Ret (mk_locals (increment "Error" (language_stats s)) (total_files s + 1)),
       tr ++ [EvOpen file; EvRead file 8192%N])
  ∧ single "Error" !! "Unknown" = None
  ∧ count (increment "Error" (language_stats s)) "Unknown"
    = count (language_stats s) "Unknown".
Proof.
  intros Hext Hdec Hguess Hc1 Hget Hc2. rewrite detect_regular, visit_regular.
  rewrite (bool_decide_eq_false_2 _ Hext).
  rewrite !(from_file_no_lexer _ _ _ _ _ _ _ Hdec Hguess Hc1 Hget Hc2).
  split; [done|]. split; [done|]. split; [done|].
  rewrite count_increment, bool_decide_eq_false_2 by done. lia.
Qed.

(** C4. A file that is read and whose [open] or [read] raises is labelled
    'Error': the call returns [{'Error': 100}] for a single file and the
    walk adds one to the count of 'Error', leaving the count of 'Binary'
    as it was. The exception does not leave the handling of the file:
    both return normally. *)
Theorem read_failure_is_error file d s tr :
  suffix file ∉ binary_extensions →
  read_fails d = true →
  detect file (Regular d) tr = (Ret (single "Error"), tr ++ read_events file d)
  ∧ (∃ s', visit (file, Regular d) s tr = (Ret s', tr ++ read_events file d)
           ∧ total_files s' = total_files s + 1
           ∧ count (language_stats s') "Error" = count (language_stats s) "Error" + 1
           ∧ count (language_stats s') "Binary" = count (language_stats s) "Binary").
Proof.
  intros Hext Hd. rewrite detect_regular, visit_regular.
  rewrite (bool_decide_eq_false_2 _ Hext).
  rewrite !from_file_read_fails by done. split; [done|].
  eexists. split; [done|]. cbn [language_stats total_files].
  rewrite !count_increment. repeat split; repeat case_bool_decide; (done || lia).
Qed.

(** *** The folder walk *)

Lemma sum_counts_increment label (stats : gmap string Z) :
  sum_counts (increment label stats) = sum_counts stats + 1.
Proof.
  assert (Hcomm : ∀ (m : gmap string Z) (j1 j2 : string) (z1 z2 y : Z),
             j1 ≠ j2 → m !! j1 = Some z1 → m !! j2 = Some z2 →
             z1 + (z2 + y) = z2 + (z1 + y)) by (intros; lia).
  unfold sum_counts, increment, count.
  destruct (stats !! label) as [v|] eqn:Hv; cbn [default].
  - rewrite <- insert_delete_eq.
    rewrite map_fold_insert_L; [|by apply Hcomm|by rewrite lookup_delete_eq].
    rewrite (map_fold_delete_L _ _ label v stats); [unfold id; lia|by apply Hcomm|done].
  - rewrite map_fold_insert_L; [lia|by apply Hcomm|done].
Qed.

(** One regular file: the total grows by one and so does exactly one count. *)
Lemma visit_regular_returns file d s tr :
  ∃ label,
    visit (file, Regular d) s tr
    = (Ret (mk_locals (increment label (language_stats s)) (total_files s + 1)),
       tr ++ if bool_decide (suffix file ∈ binary_extensions)
             then [] else read_events file d).
Proof.
  rewrite visit_regular. case_bool_decide.
  - exists "Binary". by rewrite app_nil_r.
  - destruct (from_file_returns file d) as [label Hlabel].
    exists label. by rewrite Hlabel.
Qed.

Lemma visit_directory file children s tr :
  visit (file, Directory children) s tr = (Ret s, tr).
Proof. reflexivity. Qed.

Lemma run_for_each_cons {A S} (body : A → S → M S) x xs s tr :
  for_each body (x :: xs) s tr
  = match body x s tr with
    | (Ret s', tr') => for_each body xs s' tr'
    | (Raise e, tr') => (Raise e, tr')
    end.
Proof. reflexivity. Qed.

(** The walk never raises; it keeps the counts summing to [total_files],
    which counts the regular files met. *)
Lemma for_each_visit_invariant entries s tr :
  sum_counts (language_stats s) = total_files s →
  ∃ s' tr',
    for_each visit entries s tr = (Ret s', tr')
    ∧ sum_counts (language_stats s') = total_files s'
    ∧ total_files s' = total_files s + Z.of_nat (length (regular_files entries)).
Proof.
  revert s tr. induction entries as [|[file n] entries IH]; intros s tr Hs.
  - exists s, tr. cbn. repeat split; [done|lia].
  - rewrite run_for_each_cons. destruct n as [d|children].
    + destruct (visit_regular_returns file d s tr) as [label ->].
      set (s1 := mk_locals _ _).
      destruct (IH s1 (tr ++ if bool_decide (suffix file ∈ binary_extensions)
                             then [] else read_events file d))
        as (s' & tr' & Hrun & Hsum & Htotal).
      { subst s1. cbn [language_stats total_files].
        rewrite sum_counts_increment. lia. }
      exists s', tr'. repeat split; [done..|].
      rewrite Htotal. subst s1. cbn [total_files regular_files List.filter is_file snd length].
      fold (regular_files entries). lia.
    + rewrite visit_directory.
      destruct (IH s tr Hs) as (s' & tr' & Hrun & Hsum & Htotal).
      exists s', tr'. repeat split; [done..|].
      rewrite Htotal. by cbn.
Qed.

Lemma sum_counts_empty : sum_counts ∅ = 0.
Proof. reflexivity. Qed.

(** C10. In the folder walk every regular file adds one to [total_files]
    and one to the count of exactly one label, all other counts being
    left as they are; and after any number of entries of the walk the
    loop has not raised, the counts sum to [total_files], and
    [total_files] is the number of regular files met so far. *)
Theorem counts_sum_to_total_files p n :
  (∀ file d s tr, ∃ label tr',
      visit (file, Regular d) s tr
      = (Ret (mk_locals (increment label (language_stats s)) (total_files s + 1)), tr')
      ∧ ∀ k, count (increment label (language_stats s)) k
             = count (language_stats s) k + (if bool_decide (k = label) then 1 else 0))
  ∧ (∀ (k : nat) tr, ∃ s tr',
      for_each visit (take k (rglob p n)) (mk_locals ∅ 0) tr = (Ret s, tr')
      ∧ sum_counts (language_stats s) = total_files s
      ∧ total_files s = Z.of_nat (length (regular_files (take k (rglob p n))))).
Proof.
  split.
  - intros file d s tr.
    destruct (visit_regular_returns file d s tr) as [label Hlabel].
    exists label. eexists. split; [exact Hlabel|].
    intros k. apply count_increment.
  - intros k tr.
    destruct (for_each_visit_invariant (take k (rglob p n)) (mk_locals ∅ 0) tr)
      as (s & tr' & Hrun & Hsum & Htotal); [done|].
    exists s, tr'. repeat split; [done..|]. rewrite Htotal. cbn. lia.
Qed.

(** *** The percentages *)

Lemma dict_comprehension_total {V W} (f : string → V → res W) (g : V → W)
    (d : gmap string V) :
  (∀ k v, d !! k = Some v → f k v = Ret (g v)) →
  dict_comprehension f d = Ret (g <$> d).
Proof.
  unfold dict_comprehension.
  revert d. apply (map_fold_weak_ind (λ r d, (∀ k v, d !! k = Some v → f k v = Ret (g v)) → r = Ret (g <$> d))).
  - intros _. by rewrite fmap_empty.
  - intros k v d r Hk IH Hf.
    rewrite IH.
    + rewrite (Hf k v) by apply lookup_insert_eq. by rewrite fmap_insert.
    + intros k' v' Hk'. apply Hf. rewrite lookup_insert_ne; [done|].
      intros ->. by rewrite Hk in Hk'.
Qed.

(** With at least one file, each label gets the percentage of its own count
    and of [total_files]; nothing else enters it. *)
Lemma breakdown_positive s tr :
  total_files s > 0 →
  breakdown s tr
  = (Ret ((λ v, Float (percent v (total_files s))) <$> language_stats s), tr).
Proof.
  intros Hpos. unfold breakdown.
  rewrite bool_decide_eq_true_2 by done. run.
  rewrite (dict_comprehension_total _ (λ v, Float (percent v (total_files s)))); [done|].
  intros k v _. unfold percentage. rewrite bool_decide_eq_false_2; [done|lia].
Qed.

Lemma sum_counts_insert (stats : gmap string Z) label v :
  stats !! label = None →
  sum_counts (<[label := v]> stats) = v + sum_counts stats.
Proof.
  intros Hnone. unfold sum_counts. rewrite map_fold_insert_L; [done| |done].
  intros; lia.
Qed.

Lemma sum_counts_nonneg (stats : gmap string Z) :
  (∀ label v, stats !! label = Some v → 0 < v) → 0 ≤ sum_counts stats.
Proof.
  unfold sum_counts.
  apply (map_fold_weak_ind
           (λ acc (m : gmap string Z), (∀ label v, m !! label = Some v → 0 < v) → 0 ≤ acc)).
  - done.
  - intros label v m acc Hnone IH Hpos.
    pose proof (Hpos label v (lookup_insert_eq _ _ _)).
    assert (0 ≤ acc); [|lia].
    apply IH. intros label' v' Hlook. apply (Hpos label').
    rewrite lookup_insert_ne; [done|]. intros ->. by rewrite Hnone in Hlook.
Qed.

Lemma count_le_sum_counts (stats : gmap string Z) label v :
  (∀ label v, stats !! label = Some v → 0 < v) →
  stats !! label = Some v → v ≤ sum_counts stats.
Proof.
  intros Hpos Hlook.
  rewrite <- (insert_delete_id stats label v Hlook).
  rewrite sum_counts_insert by apply lookup_delete_eq.
  assert (0 ≤ sum_counts (delete label stats)); [|lia].
  apply sum_counts_nonneg. intros label' v' Hlook'.
  apply lookup_delete_Some in Hlook' as [_ Hlook']. by apply (Hpos label').
Qed.

(** Every label met in the walk has a positive count. *)
Lemma for_each_visit_positive entries s tr s' tr' :
  (∀ label v, language_stats s !! label = Some v → 0 < v) →
  for_each visit entries s tr = (Ret s', tr') →
  ∀ label v, language_stats s' !! label = Some v → 0 < v.
Proof.
  revert s tr. induction entries as [|[file n] entries IH]; intros s tr Hpos Hrun.
  - cbn in Hrun. by injection Hrun as <- _.
  - rewrite run_for_each_cons in Hrun. destruct n as [d|children].
    + destruct (visit_regular_returns file d s tr) as [label Hvisit].
      rewrite Hvisit in Hrun. revert Hrun. apply IH.
      cbn [language_stats]. intros label' v. unfold increment.
      destruct (decide (label = label')) as [->|Hne].
      * rewrite lookup_insert_eq. intros [= <-]. unfold count.
        destruct (language_stats s !! label') as [v'|] eqn:Hlook; cbn; [|lia].
        pose proof (Hpos label' v' Hlook). unfold id. lia.
      * rewrite lookup_insert_ne by done. apply Hpos.
    + rewrite visit_directory in Hrun. revert Hrun. by apply IH.
Qed.

(** The sum of the percentages is within a tenth per label of the exact
    share of the counts in [total]. *)
Lemma sum_values_close (stats : gmap string Z) total :
  0 < total →
  (∀ label v, stats !! label = Some v → 0 < v ≤ total) →
  (inject_Z (sum_counts stats) * (100 / inject_Z total)
   - (1 # 10) * inject_Z (Z.of_nat (size stats))
   <= sum_values ((λ v, Float (percent v total)) <$> stats)
   <= inject_Z (sum_counts stats) * (100 / inject_Z total)
      + (1 # 10) * inject_Z (Z.of_nat (size stats)))%Q.
Proof.
  intros Htotal. unfold sum_values. rewrite map_fold_fmap.
  apply (map_fold_weak_ind
           (λ acc (m : gmap string Z),
              (∀ label v, m !! label = Some v → 0 < v ≤ total) →
              (inject_Z (sum_counts m) * (100 / inject_Z total)
               - (1 # 10) * inject_Z (Z.of_nat (size m))
               <= acc
               <= inject_Z (sum_counts m) * (100 / inject_Z total)
                  + (1 # 10) * inject_Z (Z.of_nat (size m)))%Q)).
  - intros _. rewrite map_size_empty, sum_counts_empty.
    change (inject_Z (Z.of_nat 0)) with 0%Q. change (inject_Z 0) with 0%Q.
    set (c := (100 / inject_Z total)%Q). lra.
  - intros label v m acc Hnone IH Hrange.
    pose proof (percent_close v total (Hrange label v (lookup_insert_eq _ _ _))) as Hv.
    assert (Hm : ∀ label v, m !! label = Some v → 0 < v ≤ total).
    { intros label' v' Hlook. apply (Hrange label').
      rewrite lookup_insert_ne; [done|]. intros ->. by rewrite Hnone in Hlook. }
    specialize (IH Hm).
    rewrite sum_counts_insert, map_size_insert_None by done.
    rewrite Nat2Z.inj_succ, <- Z.add_1_r, !inject_Z_plus.
    cbn [compose real_value]. change (inject_Z 1) with 1%Q.
    set (c := (100 / inject_Z total)%Q) in *.
    set (a := (inject_Z v * c)%Q) in *.
    set (b := (inject_Z (sum_counts m) * c)%Q) in *.
    assert (Hdistr : ((inject_Z v + inject_Z (sum_counts m)) * c == a + b)%Q)
      by (subst a b; ring).
    rewrite Hdistr. lra.
Qed.

(** Without files the comprehension, and with it the division, is skipped,
    whatever the counts are. *)
Lemma breakdown_zero stats tr : breakdown (mk_locals stats 0) tr = (Ret ∅, tr).
Proof. reflexivity. Qed.

Lemma breakdown_returns s tr : ∃ result, breakdown s tr = (Ret result, tr).
Proof.
  destruct (decide (total_files s > 0)) as [Hpos|Hzero].
  - eexists. by apply breakdown_positive.
  - exists ∅. unfold breakdown. by rewrite bool_decide_eq_false_2.
Qed.

Lemma detect_directory p children tr :
  detect p (Directory children) tr
  = match for_each visit (rglob p (Directory children)) (mk_locals ∅ 0) tr with
    | (Ret s, tr') => breakdown s tr'
    | (Raise e, tr') => (Raise e, tr')
    end.
Proof. reflexivity. Qed.

(** [pygments_language_detect] returns a dictionary on every input. *)
Lemma pygments_language_detect_returns p n tr :
  ∃ result tr', detect p n tr = (Ret result, tr').
Proof.
  destruct n as [d|children].
  - rewrite detect_regular. case_bool_decide.
    + by exists (single "Binary"), tr.
    + destruct (from_file_returns p d) as [label Hlabel].
      eexists _, _. apply Hlabel.
  - rewrite detect_directory.
    destruct (for_each_visit_invariant (rglob p (Directory children)) (mk_locals ∅ 0) tr)
      as (s & tr' & -> & _); [done|].
    destruct (breakdown_returns s tr') as [result ->]. by eexists _, _.
Qed.

Lemma for_each_visit_no_files entries s tr :
  regular_files entries = [] →
  for_each visit entries s tr = (Ret s, tr).
Proof.
  revert s tr. induction entries as [|[file n] entries IH]; intros s tr Hnone; [done|].
  rewrite run_for_each_cons. destruct n as [d|children]; [done|].
  rewrite visit_directory. by apply IH.
Qed.

(** C5. In a folder with at least one regular file the scan returns, for
    each label counted, the float [round(count / total_files * 100, 1)] of
    that label's own count and of [total_files], and for no other label;
    no percentage depends on another one. Each value is rounded to one
    decimal place: it is the float nearest to [k / 10] for a whole number
    [k] of tenths that is nearest to the exact [1000 count / total_files]
    (within a half, and the errors of the two float operations before the
    rounding, which are below a billionth). The exact values of these
    floats sum to 100 within 0.1 per label. *)
Theorem percentages_sum_to_100 p children tr :
  regular_files (rglob p (Directory children)) ≠ [] →
  ∃ s tr' result,
    walk guess_lexer_for_filename get_lexer_for_filename p (Directory children) tr
    = (Ret s, tr')
    ∧ total_files s > 0
    ∧ detect p (Directory children) tr = (Ret result, tr')
    ∧ (∀ label, result !! label
                = (λ v, Float (percent v (total_files s))) <$> language_stats s !! label)
    ∧ (∀ label v, language_stats s !! label = Some v →
         ∃ k, 0 ≤ k ≤ 1000
              ∧ result !! label = Some (Float (Float.RN (inject_Z k / 10)))
              ∧ (Qabs (inject_Z k - inject_Z v * (1000 / inject_Z (total_files s)))
                 <= (1 # 2) + (1 # 1000000000))%Q)
    ∧ (Qabs (sum_values result - 100)
       <= (1 # 10) * inject_Z (Z.of_nat (size result)))%Q.
Proof.
  intros Hfiles. unfold walk.
  destruct (for_each_visit_invariant (rglob p (Directory children)) (mk_locals ∅ 0) tr)
    as (s & tr' & Hrun & Hsum & Htotal); [done|].
  cbn [total_files] in Htotal.
  assert (Hpos : total_files s > 0).
  { destruct (regular_files (rglob p (Directory children))); [done|]. cbn in Htotal. lia. }
  assert (Hcounts : ∀ label v, language_stats s !! label = Some v → 0 < v).
  { eapply for_each_visit_positive; [|exact Hrun].
    cbn [language_stats]. intros label v Hlook. by rewrite lookup_empty in Hlook. }
  exists s, tr', ((λ v, Float (percent v (total_files s))) <$> language_stats s).
  split; [done|]. split; [done|].
  split; [by rewrite detect_directory, Hrun, breakdown_positive|].
  split; [intros label; apply lookup_fmap|].
  assert (Hrange : ∀ label v, language_stats s !! label = Some v → 0 < v ≤ total_files s).
  { intros label v Hlook. split; [by apply (Hcounts label)|].
    rewrite <- Hsum. by apply (count_le_sum_counts _ label). }
  split.
  { intros label v Hlook.
    destruct (percent_is_rounded v (total_files s) (Hrange label v Hlook))
      as (k & Hk & Hfloat & Hnear).
    exists k. split; [done|]. split; [|done].
    by rewrite lookup_fmap, Hlook, <- Hfloat. }
  rewrite map_size_fmap. apply Qabs_Qle_condition.
  pose proof (sum_values_close (language_stats s) (total_files s) ltac:(lia)) as Hclose.
  destruct Hclose as [Hlo Hhi]; [done|].
  rewrite Hsum in Hlo, Hhi.
  assert (Ht : (0 < inject_Z (total_files s))%Q).
  { change (inject_Z 0 < inject_Z (total_files s))%Q. rewrite <- Zlt_Qlt. lia. }
  assert (Hexact : (inject_Z (total_files s) * (100 / inject_Z (total_files s)) == 100)%Q)
    by (field; lra).
  rewrite Hexact in Hlo, Hhi. lra.
Qed.

(** C6. For a directory below which there is no regular file the scan
    returns the empty dictionary and raises nothing: no file is opened,
    [total_files] stays 0, and with [total_files = 0] the result is empty
    whatever the counts, so the division, which raises
    [ZeroDivisionError] on a zero divisor, is not evaluated. *)
Theorem empty_directory_gives_empty_breakdown p children tr :
  regular_files (rglob p (Directory children)) = [] →
  detect p (Directory children) tr = (Ret ∅, tr)
  ∧ walk guess_lexer_for_filename get_lexer_for_filename p (Directory children) tr
    = (Ret (mk_locals ∅ 0), tr)
  ∧ (∀ stats, breakdown (mk_locals stats 0) tr = (Ret ∅, tr))
  ∧ (∀ v, ∃ e, percentage 0 v = Raise e ∧ exn_class e = ZeroDivisionError).
Proof.
  intros Hnone. rewrite detect_directory. unfold walk.
  rewrite for_each_visit_no_files by done.
  split; [done|]. split; [done|]. split; [done|]. intros v. by eexists.
Qed.

(** *** Suffix matching *)

(** C8, as the code has it. The suffix is compared as it stands with the
    eight lower-case strings of [binary_extensions]: no case is folded.
    A file whose suffix is '.PNG' or '.Zip' is therefore not taken for a
    binary by its name; it is opened and read like any other file and
    labelled by lines 90-104. *)
Theorem binary_extension_match_is_exact file d tr :
  (suffix file ∈ binary_extensions
   ↔ suffix file ∈ [".deb"; ".bin"; ".exe"; ".zip"; ".tar"; ".gz"; ".png"; ".jpg"])
  ∧ (suffix file = ".PNG" ∨ suffix file = ".Zip" →
     (suffix file ∉ binary_extensions)
     ∧ (∃ label, detect file (Regular d) tr
                 = (Ret (single label), tr ++ read_events file d))).
Proof.
  split.
  - unfold binary_extensions.
    rewrite !elem_of_union, !elem_of_singleton, !elem_of_cons, elem_of_nil.
    tauto.
  - intros Hcase.
    assert (Hext : suffix file ∉ binary_extensions).
    { destruct Hcase as [-> | ->]; compute_done. }
    split; [done|].
    rewrite detect_regular, (bool_decide_eq_false_2 _ Hext).
    destruct (from_file_returns file d) as [label Hlabel].
    exists label. apply Hlabel.
Qed.

(** *** The external tool *)

Variable value : Type.
Variable truth : value → bool.
Variable json_loads : string → res value.

#[local] Abbreviation detect_with_linguist := (detect_with_linguist value json_loads).
#[local] Abbreviation main_menu_detect :=
  (main_menu_detect guess_lexer_for_filename get_lexer_for_filename value truth json_loads).

Lemma run_subprocess_run argv o tr :
  subprocess_run argv o tr
  = match o with
    | RunRaises e => (Raise e, tr ++ [EvRun argv])
    | Completed stdout => (Ret stdout, tr ++ [EvRun argv])
    end.
Proof. unfold subprocess_run. run. destruct o; by run. Qed.

End Properties.

(* ===================================================================== *)
(** ** The statements at concrete inputs *)
(* ===================================================================== *)

Lemma single_inj a b : single a = single b → a = b.
Proof.
  unfold single. intros Heq.
  assert (Hlook : ({[ b := Int 100 ]} : gmap string number) !! a = Some (Int 100))
    by (rewrite <- Heq; apply lookup_singleton_eq).
  apply lookup_singleton_Some in Hlook. by destruct Hlook.
Qed.

Lemma binary_extension_short_circuit_witness :
  Sample.detect ["repo"; "logo.png"] (Regular (Bytes Sample.png_magic)) []
  = (Ret (single "Binary"), [])
  ∧ Sample.visit (["repo"; "logo.png"], Regular (Bytes Sample.png_magic))
      (mk_locals ∅ 0) []
    = (Ret (mk_locals (increment "Binary" ∅) (0 + 1)), []).
Proof.
  apply (binary_extension_short_circuit
           Sample.guess_lexer_for_filename Sample.get_lexer_for_filename
           ["repo"; "logo.png"] (Bytes Sample.png_magic) (mk_locals ∅ 0) []).
  vm_compute. reflexivity.
Defined.

Lemma undecodable_content_is_binary_witness :
  Sample.detect ["repo"; "notes.txt"] (Regular (Bytes Sample.half_euro)) []
  = (Ret (single "Binary"),
     [EvOpen ["repo"; "notes.txt"]; EvRead ["repo"; "notes.txt"] 8192%N])
  ∧ Sample.visit (["repo"; "notes.txt"], Regular (Bytes Sample.half_euro))
      (mk_locals ∅ 0) []
    = (Ret (mk_locals (increment "Binary" ∅) (0 + 1)),
       [EvOpen ["repo"; "notes.txt"]; EvRead ["repo"; "notes.txt"] 8192%N]).
Proof.
  apply (undecodable_content_is_binary
           Sample.guess_lexer_for_filename Sample.get_lexer_for_filename
           ["repo"; "notes.txt"] Sample.half_euro (mk_locals ∅ 0) []).
  - vm_compute. intros H. discriminate H.
  - vm_compute. reflexivity.
Defined.

Lemma no_lexer_is_error_witness :
  Sample.detect ["repo"; "README"] (Regular (Bytes (Sample.ascii_bytes "hello"))) []
  = (Ret (single "Error"),
     [EvOpen ["repo"; "README"]; EvRead ["repo"; "README"] 8192%N])
  ∧ Sample.visit (["repo"; "README"], Regular (Bytes (Sample.ascii_bytes "hello")))
      (mk_locals ∅ 0) []
    = (Ret (mk_locals (increment "Error" ∅) (0 + 1)),
       [EvOpen ["repo"; "README"]; EvRead ["repo"; "README"] 8192%N])
  ∧ single "Error" !! "Unknown" = None
  ∧ count (increment "Error" ∅) "Unknown" = count ∅ "Unknown".
Proof.
  apply (no_lexer_is_error
           Sample.guess_lexer_for_filename Sample.get_lexer_for_filename
           ["repo"; "README"] (Sample.ascii_bytes "hello")
           [104; 101; 108; 108; 111]%N
           (mk_exn ClassNotFound "no lexer for filename found")
           (mk_exn ClassNotFound "no lexer for filename found")
           (mk_locals ∅ 0) []).
  - vm_compute. intros H. discriminate H.
  - vm_compute. reflexivity.
  - vm_compute. reflexivity.
  - reflexivity.
  - vm_compute. reflexivity.
  - reflexivity.
Defined.

(** C3 as the specification words it fails: no lexer by text, none by
    name, and the label is 'Error', not 'Unknown'. *)
Lemma unknown_label_counterexample :
  Codec.utf8_decode (read_at_most 8192 (Sample.ascii_bytes "hello"))
  = Some [104; 101; 108; 108; 111]%N
  ∧ Sample.guess_lexer_for_filename "README" [104; 101; 108; 108; 111]%N
    = Raise (mk_exn ClassNotFound "no lexer for filename found")
  ∧ Sample.get_lexer_for_filename "README"
    = Raise (mk_exn ClassNotFound "no lexer for filename found")
  ∧ Sample.detect ["repo"; "README"] (Regular (Bytes (Sample.ascii_bytes "hello"))) []
    = (Ret (single "Error"),
       [EvOpen ["repo"; "README"]; EvRead ["repo"; "README"] 8192%N])
  ∧ single "Error" ≠ single "Unknown".
Proof.
  split; [by vm_compute|]. split; [by vm_compute|]. split; [by vm_compute|].
  split; [by vm_compute|].
  intros Heq. apply single_inj in Heq. discriminate Heq.
Qed.

Lemma read_failure_is_error_witness :
  Sample.detect ["repo"; "main.py"] (Regular (OpenFails Sample.denied)) []
  = (Ret (single "Error"), [EvOpen ["repo"; "main.py"]])
  ∧ (∃ s', Sample.visit (["repo"; "main.py"], Regular (OpenFails Sample.denied))
             (mk_locals ∅ 0) []
           = (Ret s', [EvOpen ["repo"; "main.py"]])
           ∧ total_files s' = 0 + 1
           ∧ count (language_stats s') "Error" = count ∅ "Error" + 1
           ∧ count (language_stats s') "Binary" = count ∅ "Binary").
Proof.
  apply (read_failure_is_error
           Sample.guess_lexer_for_filename Sample.get_lexer_for_filename
           ["repo"; "main.py"] (OpenFails Sample.denied) (mk_locals ∅ 0) []).
  - vm_compute. intros H. discriminate H.
  - reflexivity.
Defined.

Lemma empty_directory_gives_empty_breakdown_witness :
  Sample.detect ["repo"] (Directory [("src", Directory [("lib", Directory [])]);
                                     ("docs", Directory [])]) []
  = (Ret ∅, []).
Proof.
  apply (empty_directory_gives_empty_breakdown
           Sample.guess_lexer_for_filename Sample.get_lexer_for_filename
           ["repo"] [("src", Directory [("lib", Directory [])]); ("docs", Directory [])] []).
  vm_compute. reflexivity.
Defined.

Lemma binary_extension_match_is_exact_witness :
  (".PNG" ∉ binary_extensions)
  ∧ (∃ label,
       Sample.detect ["repo"; "IMG.PNG"] (Regular (Bytes (Sample.ascii_bytes "hello"))) []
       = (Ret (single label),
          [EvOpen ["repo"; "IMG.PNG"]; EvRead ["repo"; "IMG.PNG"] 8192%N])).
Proof.
  apply (binary_extension_match_is_exact
           Sample.guess_lexer_for_filename Sample.get_lexer_for_filename
           ["repo"; "IMG.PNG"] (Bytes (Sample.ascii_bytes "hello")) []).
  left. vm_compute. reflexivity.
Defined.

(** C8 as the specification words it fails: the same unreadable file is
    'Binary' under the name IMG.png and 'Error' under the name IMG.PNG. *)
Lemma uppercase_suffix_counterexample :
  Sample.detect ["repo"; "IMG.png"] (Regular (OpenFails Sample.denied)) []
  = (Ret (single "Binary"), [])
  ∧ Sample.detect ["repo"; "IMG.PNG"] (Regular (OpenFails Sample.denied)) []
    = (Ret (single "Error"), [EvOpen ["repo"; "IMG.PNG"]])
  ∧ single "Error" ≠ single "Binary".
Proof.
  split; [by vm_compute|]. split; [by vm_compute|].
  intros Heq. apply single_inj in Heq. discriminate Heq.
Qed.

Lemma percentages_sum_to_100_witness :
  ∃ s tr' result,
    walk Sample.guess_lexer_for_filename Sample.get_lexer_for_filename
      ["repo"] (Directory Sample.thirds) []
    = (Ret s, tr')
    ∧ total_files s > 0
    ∧ Sample.detect ["repo"] (Directory Sample.thirds) [] = (Ret result, tr')
    ∧ (∀ label, result !! label
                = (λ v, Float (percent v (total_files s))) <$> language_stats s !! label)
    ∧ (∀ label v, language_stats s !! label = Some v →
         ∃ k, 0 ≤ k ≤ 1000
              ∧ result !! label = Some (Float (Float.RN (inject_Z k / 10)))
              ∧ (Qabs (inject_Z k - inject_Z v * (1000 / inject_Z (total_files s)))
                 <= (1 # 2) + (1 # 1000000000))%Q)
    ∧ (Qabs (sum_values result - 100)
       <= (1 # 10) * inject_Z (Z.of_nat (size result)))%Q.
Proof.
  apply (percentages_sum_to_100
           Sample.guess_lexer_for_filename Sample.get_lexer_for_filename
           ["repo"] Sample.thirds []).
  vm_compute. intros H. discriminate H.
Defined.

(** Two files in three are Python: 66.7 and 33.3, the floats nearest to
    667 and to 333 tenths. *)
Example thirds_breakdown :
  (Sample.detect ["repo"] (Directory Sample.thirds) []).1
  = Ret (<["Python" := Float (Float.RN (667 # 10))]>
           {["Binary" := Float (Float.RN (333 # 10))]}).
Proof. vm_compute. reflexivity. Qed.

(** The scan of the sample folder: one file in four is Python, two are
    binary, one has no lexer. *)
Example sample_breakdown :
  (Sample.detect ["repo"] Sample.project []).1
  = Ret (<["Python" := Float (percent 1 4)]>
           (<["Binary" := Float (percent 2 4)]> {["Error" := Float (percent 1 4)]})).
Proof. vm_compute. reflexivity. Qed.

(* ===================================================================== *)
(** ** Tallies *)
(* ===================================================================== *)

Lemma occurrences_cons label l ls :
  occurrences label (l :: ls)
  = (if bool_decide (l = label) then 1 else 0) + occurrences label ls.
Proof.
  unfold occurrences. cbn [List.filter]. case_bool_decide; cbn [length]; lia.
Qed.

Lemma occurrences_absent label ls : label ∉ ls → occurrences label ls = 0.
Proof.
  induction ls as [|l ls IH]; [done|].
  intros [Hne Hnotin]%not_elem_of_cons. rewrite occurrences_cons, IH by done.
  by rewrite bool_decide_eq_false_2.
Qed.

Lemma occurrences_present label ls : label ∈ ls → 0 < occurrences label ls.
Proof.
  induction ls as [|l ls IH]; [by intros ?%elem_of_nil|].
  rewrite occurrences_cons.
  intros [->|Hin]%elem_of_cons.
  - rewrite bool_decide_eq_true_2 by done. unfold occurrences. lia.
  - specialize (IH Hin). case_bool_decide; lia.
Qed.

(** The tally holds, for each label met, how often it was met. *)
Lemma tally_lookup ls (stats : gmap string Z) label :
  tally ls stats !! label
  = if bool_decide (label ∈ ls)
    then Some (count stats label + occurrences label ls)
    else stats !! label.
Proof.
  revert stats. induction ls as [|l ls IH]; intros stats.
  - rewrite bool_decide_eq_false_2; [done|]. by intros ?%elem_of_nil.
  - change (tally (l :: ls) stats) with (tally ls (increment l stats)).
    rewrite IH, occurrences_cons, count_increment.
    destruct (decide (label = l)) as [->|Hne].
    + rewrite (bool_decide_eq_true_2 (l ∈ l :: ls)) by left.
      rewrite !(bool_decide_eq_true_2 (l = l)) by done.
      case_bool_decide as Hin; [f_equal; lia|].
      unfold increment. rewrite lookup_insert_eq, occurrences_absent by done.
      f_equal; lia.
    + rewrite (bool_decide_eq_false_2 (label = l)) by done.
      rewrite (bool_decide_eq_false_2 (l = label)) by done.
      unfold increment at 1. rewrite lookup_insert_ne by done.
      repeat case_bool_decide; set_unfold; try naive_solver.
      f_equal; lia.
Qed.

Lemma occurrences_permutation label ls ls' :
  ls ≡ₚ ls' → occurrences label ls = occurrences label ls'.
Proof.
  induction 1 as [|l ls ls' _ IH|l l' ls|ls ls' ls'' _ IH1 _ IH2].
  - done.
  - by rewrite !occurrences_cons, IH.
  - rewrite !occurrences_cons. lia.
  - congruence.
Qed.

Lemma tally_permutation ls ls' (stats : gmap string Z) :
  ls ≡ₚ ls' → tally ls stats = tally ls' stats.
Proof.
  intros Hperm. apply map_eq. intros label. rewrite !tally_lookup.
  rewrite (occurrences_permutation _ _ _ Hperm).
  assert (label ∈ ls ↔ label ∈ ls') as Hin by by rewrite Hperm.
  repeat case_bool_decide; naive_solver.
Qed.

(* ===================================================================== *)
(** ** Further properties of the detection *)
(* ===================================================================== *)

Section Detection_properties.

Variable guess_lexer_for_filename : string → list N → res string.
Variable get_lexer_for_filename : string → res string.

#[local] Abbreviation from_text := (from_text guess_lexer_for_filename get_lexer_for_filename).
#[local] Abbreviation from_bytes := (from_bytes guess_lexer_for_filename get_lexer_for_filename).
#[local] Abbreviation from_file := (from_file guess_lexer_for_filename get_lexer_for_filename).
#[local] Abbreviation detect := (pygments_language_detect guess_lexer_for_filename get_lexer_for_filename).
#[local] Abbreviation visit := (visit guess_lexer_for_filename get_lexer_for_filename).
#[local] Abbreviation walk := (walk guess_lexer_for_filename get_lexer_for_filename).
#[local] Abbreviation text_outcome := (text_outcome guess_lexer_for_filename get_lexer_for_filename).
#[local] Abbreviation bytes_outcome := (bytes_outcome guess_lexer_for_filename get_lexer_for_filename).
#[local] Abbreviation read_label := (read_label guess_lexer_for_filename get_lexer_for_filename).
#[local] Abbreviation label_of := (label_of guess_lexer_for_filename get_lexer_for_filename).
#[local] Abbreviation labels := (labels guess_lexer_for_filename get_lexer_for_filename).

#[local] Ltac steps :=
  repeat (rewrite ?run_try_except, ?run_bind, ?run_lift, ?run_ret, ?run_raise,
            ?run_emit, ?select_cons, ?select_nil; cbn [fst snd]).

Lemma from_text_outcome {A} (settle : string → A) fn text tr :
  from_text settle fn text tr
  = (match text_outcome fn text with
     | Ret lexer => Ret (settle lexer)
     | Raise e => Raise e
     end, tr).
Proof.
  unfold AJ.from_text, AJ.text_outcome. steps.
  destruct (guess_lexer_for_filename fn text) as [lexer|e]; steps; [done|].
  destruct (isinstance e ClassNotFound); steps; [|done].
  destruct (get_lexer_for_filename fn); by steps.
Qed.

Lemma from_bytes_outcome {A} (settle : string → A) fn content tr :
  from_bytes settle fn content tr
  = (match bytes_outcome fn content with
     | Ret label => Ret (settle label)
     | Raise e => Raise e
     end, tr).
Proof.
  unfold AJ.from_bytes, AJ.bytes_outcome, Codec.decode. steps.
  destruct (Codec.utf8_decode content) as [text|]; steps; [|done].
  rewrite from_text_outcome.
  destruct (text_outcome fn text) as [lexer|e]; steps; [done|].
  destruct (isinstance e UnicodeDecodeError); by steps.
Qed.

(** Lines 90-104 as a function of the file: the label is [read_label]. *)
Lemma from_file_label {A} (settle : string → A) file d tr :
  from_file settle file d tr
  = (Ret (settle (read_label file d)), tr ++ read_events file d).
Proof.
  unfold AJ.from_file, AJ.read_label. steps. rewrite run_open_rb_read.
  destruct d as [e|e|content]; steps; rewrite ?isinstance_Exception; steps; [done..|].
  rewrite from_bytes_outcome.
  destruct (bytes_outcome (name file) (read_at_most 8192 content)) as [label|e];
    steps; [done|].
  rewrite isinstance_Exception. by steps.
Qed.

Lemma detect_file_label file d tr :
  detect file (Regular d) tr
  = (Ret (single (label_of file d)),
     tr ++ if bool_decide (suffix file ∈ binary_extensions)
           then [] else read_events file d).
Proof.
  rewrite (detect_regular guess_lexer_for_filename get_lexer_for_filename).
  unfold AJ.label_of. case_bool_decide.
  - by rewrite app_nil_r.
  - apply from_file_label.
Qed.

Lemma visit_file_label file d s tr :
  visit (file, Regular d) s tr
  = (Ret (mk_locals (increment (label_of file d) (language_stats s)) (total_files s + 1)),
     tr ++ if bool_decide (suffix file ∈ binary_extensions)
           then [] else read_events file d).
Proof.
  rewrite (visit_regular guess_lexer_for_filename get_lexer_for_filename).
  unfold AJ.label_of. case_bool_decide.
  - by rewrite app_nil_r.
  - apply from_file_label.
Qed.

(** X1. Where [guess_lexer_for_filename] returns a lexer for the name and
    the decoded text, its name is the label: [{name: 100}] for a single
    file, one more under that name in the folder walk. *)
Theorem guessed_lexer_is_the_label file content text lexer s tr :
  suffix file ∉ binary_extensions →
  Codec.utf8_decode (read_at_most 8192 content) = Some text →
  guess_lexer_for_filename (name file) text = Ret lexer →
  detect file (Regular (Bytes content)) tr
  = (Ret (single lexer), tr ++ [EvOpen file; EvRead file 8192%N])
  ∧ visit (file, Regular (Bytes content)) s tr
    = (Ret (mk_locals (increment lexer (language_stats s)) (total_files s + 1)),
       tr ++ [EvOpen file; EvRead file 8192%N]).
Proof.
  intros Hext Hdec Hguess.
  assert (Hlabel : label_of file (Bytes content) = lexer).
  { unfold AJ.label_of, AJ.read_label, AJ.bytes_outcome, AJ.text_outcome.
    by rewrite (bool_decide_eq_false_2 _ Hext), Hdec, Hguess. }
  rewrite detect_file_label, visit_file_label, Hlabel.
  by rewrite (bool_decide_eq_false_2 _ Hext).
Qed.

(** X2. Where the guess raises [ClassNotFound] and the lookup by name
    alone finds a lexer, that lexer's name is the label, in both modes. *)
Theorem filename_lexer_is_the_fallback file content text e lexer s tr :
  suffix file ∉ binary_extensions →
  Codec.utf8_decode (read_at_most 8192 content) = Some text →
  guess_lexer_for_filename (name file) text = Raise e →
  exn_class e = ClassNotFound →
  get_lexer_for_filename (name file) = Ret lexer →
  detect file (Regular (Bytes content)) tr
  = (Ret (single lexer), tr ++ [EvOpen file; EvRead file 8192%N])
  ∧ visit (file, Regular (Bytes content)) s tr
    = (Ret (mk_locals (increment lexer (language_stats s)) (total_files s + 1)),
       tr ++ [EvOpen file; EvRead file 8192%N]).
Proof.
  intros Hext Hdec Hguess Hclass Hget.
  assert (Hlabel : label_of file (Bytes content) = lexer).
  { unfold AJ.label_of, AJ.read_label, AJ.bytes_outcome, AJ.text_outcome.
    rewrite (bool_decide_eq_false_2 _ Hext), Hdec, Hguess.
    replace (isinstance e ClassNotFound) with true
      by (unfold isinstance; by rewrite Hclass).
    by rewrite Hget. }
  rewrite detect_file_label, visit_file_label, Hlabel.
  by rewrite (bool_decide_eq_false_2 _ Hext).
Qed.

(** X3. Where the guess raises an exception that is neither a
    [ClassNotFound] nor a [UnicodeDecodeError], the label is 'Error' and the
    lookup by name is not tried: the result is the same whatever
    [get_lexer_for_filename] would answer. *)
Theorem other_guess_failure_is_error
    (get : string → res string) file content text e tr :
  suffix file ∉ binary_extensions →
  Codec.utf8_decode (read_at_most 8192 content) = Some text →
  guess_lexer_for_filename (name file) text = Raise e →
  isinstance e ClassNotFound = false →
  isinstance e UnicodeDecodeError = false →
  pygments_language_detect guess_lexer_for_filename get file (Regular (Bytes content)) tr
  = (Ret (single "Error"), tr ++ [EvOpen file; EvRead file 8192%N]).
Proof.
  intros Hext Hdec Hguess Hnot Hnot'.
  rewrite (detect_regular guess_lexer_for_filename get).
  rewrite (bool_decide_eq_false_2 _ Hext).
  unfold AJ.from_file, AJ.from_bytes, AJ.from_text, Codec.decode. steps.
  rewrite run_open_rb_read. steps. rewrite Hdec. steps. rewrite Hguess. steps.
  rewrite Hnot. steps. rewrite Hnot'. steps. rewrite isinstance_Exception. by steps.
Qed.

(** X4. Only the first 8192 bytes of a file count: two contents with the
    same first 8192 bytes give the same result and the same events, for a
    single file and in the folder walk. *)
Theorem only_the_first_8192_bytes_count file content1 content2 s tr :
  read_at_most 8192 content1 = read_at_most 8192 content2 →
  detect file (Regular (Bytes content1)) tr = detect file (Regular (Bytes content2)) tr
  ∧ visit (file, Regular (Bytes content1)) s tr
    = visit (file, Regular (Bytes content2)) s tr.
Proof.
  intros Hsame.
  assert (Hlabel : label_of file (Bytes content1) = label_of file (Bytes content2)).
  { unfold AJ.label_of, AJ.read_label. by rewrite Hsame. }
  by rewrite !detect_file_label, !visit_file_label, Hlabel.
Qed.

Lemma utf8_decode_ascii_app pre rest :
  Forall (λ b, (Byte.to_N b < 0x80)%N) pre →
  Codec.utf8_decode (pre ++ rest)
  = (λ text, (Byte.to_N <$> pre) ++ text) <$> Codec.utf8_decode rest.
Proof.
  induction 1 as [|b pre Hb _ IH].
  - cbn. by destruct (Codec.utf8_decode rest).
  - cbn [app Codec.utf8_decode].
    replace (Byte.to_N b <? 0x80)%N with true by (symmetry; by apply N.ltb_lt).
    rewrite IH. by destruct (Codec.utf8_decode rest).
Qed.

Lemma utf8_decode_lone_byte b :
  (0x80 ≤ Byte.to_N b)%N → Codec.utf8_decode [b] = None.
Proof.
  intros Hb. cbn.
  replace (Byte.to_N b <? 0x80)%N with false by (symmetry; by apply N.ltb_ge).
  by repeat case_match.
Qed.

(** X5. The cut at 8192 bytes can fall inside a character: a file whose
    first 8191 bytes are ASCII and whose 8192nd byte is not is labelled
    'Binary', whatever follows, also when the file as a whole is valid
    UTF-8. *)
Theorem character_cut_at_8192_is_binary file pre b rest tr :
  suffix file ∉ binary_extensions →
  N.of_nat (length pre) = 8191%N →
  Forall (λ b, (Byte.to_N b < 0x80)%N) pre →
  (0x80 ≤ Byte.to_N b)%N →
  detect file (Regular (Bytes (pre ++ b :: rest))) tr
  = (Ret (single "Binary"), tr ++ [EvOpen file; EvRead file 8192%N]).
Proof.
  intros Hext Hlen Hascii Hb.
  assert (Hread : read_at_most 8192 (pre ++ b :: rest) = pre ++ [b]).
  { unfold read_at_most.
    replace (N.to_nat 8192) with (length pre + 1)%nat by lia.
    rewrite take_app_ge by lia.
    replace (length pre + 1 - length pre)%nat with 1%nat by lia. done. }
  assert (Hlabel : label_of file (Bytes (pre ++ b :: rest)) = "Binary").
  { unfold AJ.label_of, AJ.read_label, AJ.bytes_outcome.
    rewrite (bool_decide_eq_false_2 _ Hext), Hread.
    by rewrite utf8_decode_ascii_app, utf8_decode_lone_byte. }
  rewrite detect_file_label, Hlabel. by rewrite (bool_decide_eq_false_2 _ Hext).
Qed.

(** *** The walk as a whole *)

#[local] Abbreviation walk_events := (walk_events guess_lexer_for_filename get_lexer_for_filename).

(** The loop never raises: it tallies the labels of the regular files and
    performs the reads of those that are read, in the order of the entries. *)
Lemma for_each_visit_run entries s tr :
  for_each visit entries s tr
  = (Ret (mk_locals (tally (labels entries) (language_stats s))
            (total_files s + Z.of_nat (length (labels entries)))),
     tr ++ AJ.walk_events entries).
Proof.
  revert s tr. induction entries as [|[file [d|children]] entries IH]; intros s tr.
  - cbn. rewrite app_nil_r, Z.add_0_r. by destruct s.
  - rewrite run_for_each_cons, visit_file_label, IH.
    cbn [AJ.labels AJ.walk_events length tally foldl language_stats total_files].
    rewrite <- app_assoc. do 2 f_equal. f_equal. lia.
  - rewrite run_for_each_cons.
    rewrite (visit_directory guess_lexer_for_filename get_lexer_for_filename).
    by rewrite IH.
Qed.

(** X7. What a folder scan returns. With [n > 0] regular files below the
    folder, a label that [c > 0] of them resolve to is reported with
    [round(c / n * 100, 1)], and a label that none resolves to is not in
    the result. *)
Theorem folder_result_by_label p children tr :
  regular_files (rglob p (Directory children)) ≠ [] →
  ∃ result tr',
    detect p (Directory children) tr = (Ret result, tr')
    ∧ ∀ label,
        result !! label
        = if bool_decide (label ∈ labels (rglob p (Directory children)))
          then Some (Float (percent (occurrences label (labels (rglob p (Directory children))))
                              (Z.of_nat (length (labels (rglob p (Directory children)))))))
          else None.
Proof.
  intros Hfiles.
  rewrite (detect_directory guess_lexer_for_filename get_lexer_for_filename).
  rewrite for_each_visit_run. cbn [language_stats total_files].
  set (entries := rglob p (Directory children)) in *.
  assert (Hpos : 0 + Z.of_nat (length (labels entries)) > 0).
  { clearbody entries. induction entries as [|[file [d|cs]] entries IH]; [done|..].
    - cbn [AJ.labels length]. lia.
    - apply IH. by cbn in Hfiles. }
  rewrite breakdown_positive by done. cbn [language_stats total_files].
  eexists _, _. split; [done|].
  intros label. rewrite lookup_fmap, tally_lookup.
  case_bool_decide; [|by rewrite lookup_empty].
  cbn. unfold count. rewrite lookup_empty. cbn. do 3 f_equal.
Qed.

Lemma labels_permutation entries entries' :
  entries ≡ₚ entries' → labels entries ≡ₚ labels entries'.
Proof.
  induction 1 as [|[file [d|cs]] l l' _ IH|[file [d|cs]] [file' [d'|cs']] l|l l' l'' _ IH1 _ IH2];
    cbn [AJ.labels]; try done.
  - by constructor.
  - apply perm_swap.
  - by etrans.
Qed.

(** X8. The order in which the entries of the folder are met does not
    matter: walking the same entries in another order gives the same
    counts, the same total and the same result dictionary. *)
Theorem walk_order_does_not_matter entries entries' s tr tr' :
  entries ≡ₚ entries' →
  (for_each visit entries s tr).1 = (for_each visit entries' s tr').1
  ∧ ((for_each visit entries s ≫= breakdown) tr).1
    = ((for_each visit entries' s ≫= breakdown) tr').1.
Proof.
  intros Hperm.
  pose proof (labels_permutation _ _ Hperm) as Hlabels.
  assert (Hsame : (for_each visit entries s tr).1 = (for_each visit entries' s tr').1).
  { rewrite !for_each_visit_run. cbn [fst].
    by rewrite (tally_permutation _ _ _ Hlabels), (Permutation_length Hlabels). }
  split; [done|].
  rewrite !run_bind. rewrite !for_each_visit_run in *. cbn [fst] in Hsame.
  injection Hsame as Hstats Htotal.
  rewrite Hstats, Htotal.
  set (s' := mk_locals _ _).
  destruct (breakdown_returns s' (tr ++ AJ.walk_events entries)) as [r1 Hr1].
  destruct (breakdown_returns s' (tr' ++ AJ.walk_events entries')) as [r2 Hr2].
  rewrite Hr1, Hr2. cbn [fst].
  destruct (decide (total_files s' > 0)) as [Hpos|Hzero].
  - rewrite breakdown_positive in Hr1, Hr2 by done. congruence.
  - unfold breakdown in Hr1, Hr2. rewrite bool_decide_eq_false_2 in Hr1, Hr2 by done.
    rewrite run_ret in Hr1, Hr2. congruence.
Qed.

End Detection_properties.

(* ===================================================================== *)
(** ** Further properties of the percentages *)
(* ===================================================================== *)

Section Percentages.
Local Open Scope Q_scope.
Import Float.

Lemma two_power_le a b : (a <= b)%Z -> 2 ^ a <= 2 ^ b.
Proof.
  intros Hab. replace b with (a + (b - a))%Z by lia.
  rewrite Qpower_plus by done.
  assert (Hone : 1 <= 2 ^ (b - a)).
  { change 2 with (inject_Z 2). rewrite <- Zpower_Qpower by lia.
    change 1 with (inject_Z 1). rewrite <- Zle_Qle.
    pose proof (Z.pow_pos_nonneg 2 (b - a)). lia. }
  pose proof (two_power_pos a).
  set (x := 2 ^ a) in *. set (y := 2 ^ (b - a)) in *.
  assert (x * 1 <= x * y) by (apply Qmult_le_l; lra). lra.
Qed.

Lemma ilog2_lt q : 0 < q -> q < 2 ^ (ilog2 q + 1).
Proof.
  intros Hq. unfold ilog2.
  set (a := Qnum q). set (b := Qden q).
  destruct (Qle_bool (2 ^ (Z.log2 a - Z.log2 (Z.pos b))) q) eqn:Hle.
  - clear Hle.
    assert (Ha : (0 < a)%Z) by (destruct q as [n d]; unfold Qlt in Hq; cbn in *; lia).
    pose proof (Z.log2_spec a Ha) as [_ Hla].
    pose proof (Z.log2_spec (Z.pos b) ltac:(lia)) as [Hlb _].
    pose proof (Z.log2_nonneg a) as Hna. pose proof (Z.log2_nonneg (Z.pos b)) as Hnb.
    set (la := Z.log2 a) in *. set (lb := Z.log2 (Z.pos b)) in *.
    assert (Hq' : q == inject_Z a / inject_Z (Z.pos b)).
    { destruct q as [n d]. apply Qmake_Qdiv. }
    assert (Hb : 0 < inject_Z (Z.pos b)).
    { change (inject_Z 0 < inject_Z (Z.pos b)). rewrite <- Zlt_Qlt. lia. }
    rewrite Hq'. apply Qlt_shift_div_r; [done|].
    apply Qlt_le_trans with (2 ^ (la - lb + 1) * 2 ^ lb).
    + rewrite <- Qpower_plus by done.
      replace (la - lb + 1 + lb)%Z with (Z.succ la) by lia.
      change 2 with (inject_Z 2). rewrite <- Zpower_Qpower by lia.
      by rewrite <- Zlt_Qlt.
    + apply Qmult_le_l; [apply two_power_pos|].
      change 2 with (inject_Z 2). rewrite <- Zpower_Qpower by lia.
      by rewrite <- Zle_Qle.
  - replace (Z.log2 a - Z.log2 (Z.pos b) - 1 + 1)%Z
      with (Z.log2 a - Z.log2 (Z.pos b))%Z by lia.
    apply Qnot_le_lt. intros Hcontra. apply Qle_bool_iff in Hcontra. congruence.
Qed.

(** [ilog2 q] is the one exponent [e] with [2^e <= q < 2^(e+1)]. *)
Lemma ilog2_unique q e : 2 ^ e <= q -> q < 2 ^ (e + 1) -> ilog2 q = e.
Proof.
  intros Hlo Hhi.
  assert (Hq : 0 < q) by (pose proof (two_power_pos e); lra).
  pose proof (ilog2_le q Hq) as Hlo'. pose proof (ilog2_lt q Hq) as Hhi'.
  destruct (Z.lt_trichotomy (ilog2 q) e) as [Hlt|[Heq|Hgt]]; [|done|].
  - pose proof (two_power_le (ilog2 q + 1) e ltac:(lia)). lra.
  - pose proof (two_power_le (e + 1) (ilog2 q) ltac:(lia)). lra.
Qed.

Lemma ilog2_proper q q' : 0 < q -> q == q' -> ilog2 q = ilog2 q'.
Proof.
  intros Hq Heq. symmetry. apply ilog2_unique.
  - rewrite <- Heq. by apply ilog2_le.
  - rewrite <- Heq. by apply ilog2_lt.
Qed.

Lemma half_even_proper q q' : q == q' -> half_even q = half_even q'.
Proof.
  intros Heq. unfold half_even. cbv zeta. rewrite (Qfloor_comp q q' Heq).
  replace (Qcompare (q - inject_Z (Qfloor q')) (1 # 2))
    with (Qcompare (q' - inject_Z (Qfloor q')) (1 # 2)); [done|].
  apply Qcompare_comp; [|done]. by rewrite Heq.
Qed.

(** The rounding depends on the value only, not on how the fraction is
    written. *)
Lemma RN_proper q q' : q == q' -> RN q = RN q'.
Proof.
  intros Heq. unfold RN.
  destruct (Qeq_bool q 0) eqn:Hzero.
  - apply Qeq_bool_iff in Hzero.
    replace (Qeq_bool q' 0) with true; [done|].
    symmetry. apply Qeq_bool_iff. by rewrite <- Heq.
  - replace (Qeq_bool q' 0) with false.
    2:{ symmetry. apply not_true_is_false. intros Hcontra%Qeq_bool_iff.
        apply Qeq_bool_neq in Hzero. apply Hzero. by rewrite Heq. }
    apply Qeq_bool_neq in Hzero.
    assert (Habs : 0 < Qabs q).
    { pose proof (Qabs_nonneg q) as Hnn. apply Qle_lteq in Hnn as [|Habs0]; [done|].
      exfalso. apply Hzero. symmetry in Habs0.
      destruct (Qabs_Qle_condition q 0) as [Hcond _].
      destruct Hcond as [? ?]; [rewrite Habs0; apply Qle_refl|]. lra. }
    assert (He : ilog2 (Qabs q) = ilog2 (Qabs q')).
    { apply ilog2_proper; [done|]. by rewrite Heq. }
    rewrite He.
    by rewrite (half_even_proper (q / 2 ^ (ilog2 (Qabs q') - 52))
                  (q' / 2 ^ (ilog2 (Qabs q') - 52))) by by rewrite Heq.
Qed.

Lemma percent_whole n : (0 < n)%Z -> percent n n == 100.
Proof.
  intros Hn. unfold percent, round1, multiply, true_divide.
  assert (Hn' : 0 < inject_Z n).
  { change (inject_Z 0 < inject_Z n). rewrite <- Zlt_Qlt. lia. }
  rewrite (RN_proper (inject_Z n / inject_Z n) 1) by (field; lra).
  rewrite (RN_proper (RN 1 * 100) 100) by (vm_compute; reflexivity).
  rewrite (half_even_proper (RN 100 * 10) 1000) by (vm_compute; reflexivity).
  vm_compute. reflexivity.
Qed.

(** X9. A label that all files of the folder resolve to is reported with
    exactly 100.0: [round(n / n * 100, 1)] is 100 for every [n > 0]. *)
Theorem whole_share_is_100 n : (0 < n)%Z -> percent n n == 100.
Proof. apply percent_whole. Qed.

(** X10. Every percentage is the float nearest to [k / 10] for a whole
    number of tenths [k] between 0 and 1000, and lies between 0 and 100. *)
Theorem percent_is_a_tenth_within_0_100 v t :
  (0 < v <= t)%Z ->
  (exists k, (0 <= k <= 1000)%Z /\ percent v t = RN (inject_Z k / 10))
  /\ 0 <= percent v t <= 100.
Proof.
  intros [Hv Hvt]. unfold percent, round1, multiply, true_divide.
  assert (Ht : 0 < inject_Z t).
  { change (inject_Z 0 < inject_Z t). rewrite <- Zlt_Qlt. lia. }
  assert (Hv' : 0 < inject_Z v).
  { change (inject_Z 0 < inject_Z v). rewrite <- Zlt_Qlt. lia. }
  assert (Hvt' : inject_Z v <= inject_Z t) by by rewrite <- Zle_Qle.
  set (r := inject_Z v / inject_Z t).
  assert (Hr0 : 0 < r) by (apply Qlt_shift_div_l; lra).
  assert (Hr1 : r <= 1) by (apply Qle_shift_div_r; lra).
  pose proof (RN_close r ltac:(lra)) as Hx1. unfold unit_roundoff in Hx1.
  set (x1 := RN r) in *.
  pose proof (RN_close (x1 * 100) ltac:(lra)) as Hx2. unfold unit_roundoff in Hx2.
  set (x2 := RN (x1 * 100)) in *.
  pose proof (half_even_close (x2 * 10)) as Hk.
  pose proof (half_even_nonneg (x2 * 10) ltac:(lra)) as Hk0.
  set (k := half_even (x2 * 10)) in *.
  assert (Hk1000 : (k <= 1000)%Z).
  { assert (Hlt : inject_Z k < inject_Z 1001) by (change (inject_Z 1001) with 1001; lra).
    rewrite <- Zlt_Qlt in Hlt. lia. }
  split; [exists k; by split|].
  clearbody k. clear Hx2 Hx1. clearbody x2.
  assert (Hk0' : 0 <= inject_Z k).
  { change 0 with (inject_Z 0). by rewrite <- Zle_Qle. }
  assert (Hd : 10 * (inject_Z k / 10) == inject_Z k) by (field; lra).
  destruct (decide (k = 1000%Z)) as [->|Hne].
  - clear. vm_compute. split; discriminate.
  - assert (Hk999 : inject_Z k <= 999).
    { change 999 with (inject_Z 999). rewrite <- Zle_Qle. lia. }
    set (d := inject_Z k / 10) in *.
    pose proof (RN_close d ltac:(lra)) as Hx3. unfold unit_roundoff in Hx3.
    lra.
Qed.

(** An integer within less than a half of [q] is the one [q] rounds to. *)
Lemma half_even_near q k :
  inject_Z k - (1 # 2) < q -> q < inject_Z k + (1 # 2) -> half_even q = k.
Proof.
  intros Hlo Hhi. unfold half_even. cbv zeta.
  pose proof (Qfloor_le q) as Hfl. pose proof (Qlt_floor q) as Hfh.
  rewrite inject_Z_plus in Hfh. change (inject_Z 1) with 1 in Hfh.
  assert (Hcases : (Qfloor q = k \/ Qfloor q = k - 1)%Z).
  { assert (H1 : inject_Z (Qfloor q) < inject_Z (k + 1)).
    { rewrite inject_Z_plus. change (inject_Z 1) with 1. lra. }
    assert (H2 : inject_Z (k - 2) < inject_Z (Qfloor q)).
    { unfold Z.sub. rewrite inject_Z_plus. change (inject_Z (- (2))) with (-2). lra. }
    rewrite <- Zlt_Qlt in H1, H2. lia. }
  destruct Hcases as [Hf|Hf]; rewrite Hf in *.
  - replace (Qcompare (q - inject_Z k) (1 # 2)) with Lt; [done|].
    symmetry. apply (proj1 (Qlt_alt _ _)). lra.
  - assert (Hk : inject_Z (k - 1) == inject_Z k - 1).
    { unfold Z.sub. rewrite inject_Z_plus. change (inject_Z (- (1))) with (-1). lra. }
    replace (Qcompare (q - inject_Z (k - 1)) (1 # 2)) with Gt; [lia|].
    symmetry. apply (proj1 (Qgt_alt _ _)). lra.
Qed.

(** The tenths that [round(v / t * 100, 1)] settles on. *)
Lemma percent_tenths v t :
  (0 < v <= t)%Z ->
  (0 <= half_even (multiply (true_divide v t) 100 * 10) <= 1000)%Z.
Proof.
  intros [Hv Hvt]. unfold multiply, true_divide.
  assert (Ht : 0 < inject_Z t).
  { change (inject_Z 0 < inject_Z t). rewrite <- Zlt_Qlt. lia. }
  assert (Hv' : 0 < inject_Z v).
  { change (inject_Z 0 < inject_Z v). rewrite <- Zlt_Qlt. lia. }
  assert (Hvt' : inject_Z v <= inject_Z t) by by rewrite <- Zle_Qle.
  set (r := inject_Z v / inject_Z t).
  assert (Hr0 : 0 < r) by (apply Qlt_shift_div_l; lra).
  assert (Hr1 : r <= 1) by (apply Qle_shift_div_r; lra).
  pose proof (RN_close r ltac:(lra)) as Hx1. unfold unit_roundoff in Hx1.
  set (x1 := RN r) in *.
  pose proof (RN_close (x1 * 100) ltac:(lra)) as Hx2. unfold unit_roundoff in Hx2.
  set (x2 := RN (x1 * 100)) in *.
  pose proof (half_even_close (x2 * 10)) as Hk.
  pose proof (half_even_nonneg (x2 * 10) ltac:(lra)) as Hk0.
  set (k := half_even (x2 * 10)) in *.
  split; [done|].
  assert (Hlt : inject_Z k < inject_Z 1001) by (change (inject_Z 1001) with 1001; lra).
  rewrite <- Zlt_Qlt in Hlt. lia.
Qed.

(** Formatting the float of a whole number of tenths gives back the
    tenths. *)
Lemma format_1f_tenths k :
  (0 <= k <= 1000)%Z ->
  format_1f (RN (inject_Z k / 10))
  = pretty (k / 10)%Z +:+ "." +:+ pretty (k mod 10)%Z.
Proof.
  intros [Hk0 Hk1]. unfold format_1f. cbv zeta.
  assert (Hk0' : 0 <= inject_Z k).
  { change 0 with (inject_Z 0). by rewrite <- Zle_Qle. }
  assert (Hk1' : inject_Z k <= 1000).
  { change 1000 with (inject_Z 1000). by rewrite <- Zle_Qle. }
  assert (Hd : 10 * (inject_Z k / 10) == inject_Z k) by (field; lra).
  set (d := inject_Z k / 10) in *.
  pose proof (RN_close d ltac:(lra)) as Hx. unfold unit_roundoff in Hx.
  set (x := RN d) in *.
  assert (Hx0 : 0 <= x) by lra.
  replace (Qle_bool 0 x) with true by (symmetry; by apply Qle_bool_iff).
  rewrite (half_even_proper (Qabs x * 10) (x * 10)) by by rewrite (Qabs_pos x Hx0).
  rewrite (half_even_near (x * 10) k) by lra.
  done.
Qed.

(** X22. What is printed is what was rounded: a percentage of the scan is
    the float of a whole number [k] of tenths between 0 and 1000, and its
    line of the breakdown shows [k / 10], a point and the digit [k mod 10],
    padded on the left to five characters. *)
Theorem printed_percentage_is_the_rounded_one lang v t :
  (0 < v <= t)%Z ->
  exists k digits,
    (0 <= k <= 1000)%Z
    /\ percent v t = RN (inject_Z k / 10)
    /\ digits = pretty (k / 10)%Z +:+ "." +:+ pretty (k mod 10)%Z
    /\ breakdown_line (lang, Float (percent v t))
       = (spaces (5 - String.length digits) +:+ digits) +:+ "% | " +:+ lang.
Proof.
  intros Hvt. pose proof (percent_tenths v t Hvt) as Hk.
  exists (half_even (multiply (true_divide v t) 100 * 10)). eexists.
  split; [done|]. split; [done|]. split; [done|].
  unfold breakdown_line, format_5_1f. cbn [fst snd nearest_float].
  change (percent v t)
    with (RN (inject_Z (half_even (multiply (true_divide v t) 100 * 10)) / 10)).
  by rewrite format_1f_tenths by done.
Qed.

End Percentages.

(* ===================================================================== *)
(** ** Further properties of the external tool and of the menu *)
(* ===================================================================== *)

Section Linguist_properties.

Variable guess_lexer_for_filename : string → list N → res string.
Variable get_lexer_for_filename : string → res string.
Variable value : Type.
Variable truth : value → bool.
Variable json_loads : string → res value.

#[local] Abbreviation detect := (pygments_language_detect guess_lexer_for_filename get_lexer_for_filename).
#[local] Abbreviation detect_with_linguist := (detect_with_linguist value json_loads).
#[local] Abbreviation main_menu_detect :=
  (main_menu_detect guess_lexer_for_filename get_lexer_for_filename value truth json_loads).

#[local] Ltac steps :=
  repeat (rewrite ?run_try_except, ?run_bind, ?run_lift, ?run_ret, ?run_raise,
            ?run_emit, ?select_cons, ?select_nil; cbn [fst snd]).

Lemma detect_with_linguist_parsed p stdout v tr :
  json_loads stdout = Ret v →
  detect_with_linguist p (Completed stdout) tr
  = (Ret (Some v), tr ++ [EvRun (linguist_argv p)]).
Proof.
  intros Hjson. unfold AJ.detect_with_linguist. steps.
  rewrite run_subprocess_run. steps. rewrite Hjson. by steps.
Qed.

(** The notices of the two handlers. *)
Lemma detect_with_linguist_raised p o e tr :
  (o = RunRaises e ∨ ∃ stdout, o = Completed stdout ∧ json_loads stdout = Raise e) →
  detect_with_linguist p o tr
  = (Ret None,
     tr ++ EvRun (linguist_argv p)
        :: if isinstance e FileNotFoundError
           then [EvPrint "ℹ️ github-linguist not found. Using fallback methods..."]
           else [EvPrint ("⚠️ Linguist error: " +:+ exn_str e);
                 EvPrint (newline +:+ "❌ git not found, Using fallback methods...")]).
Proof.
  intros Hfail. unfold AJ.detect_with_linguist. steps. rewrite run_subprocess_run.
  assert (Hhandled :
    match select_clause e
            [(FileNotFoundError, λ _ : exn,
                print "ℹ️ github-linguist not found. Using fallback methods...";;
                mret (@None value));
             (Exception, λ e,
                print ("⚠️ Linguist error: " +:+ exn_str e);;
                print (newline +:+ "❌ git not found, Using fallback methods...");;
                mret None)] with
    | Some h => h (tr ++ [EvRun (linguist_argv p)])
    | None => (Raise e, tr ++ [EvRun (linguist_argv p)])
    end
    = (Ret None,
       tr ++ EvRun (linguist_argv p)
          :: if isinstance e FileNotFoundError
             then [EvPrint "ℹ️ github-linguist not found. Using fallback methods..."]
             else [EvPrint ("⚠️ Linguist error: " +:+ exn_str e);
                   EvPrint (newline +:+ "❌ git not found, Using fallback methods...")])).
  { rewrite select_cons. destruct (isinstance e FileNotFoundError).
    - unfold print. steps. by rewrite <- app_assoc.
    - rewrite select_cons, isinstance_Exception. unfold print. steps.
      by rewrite <- !app_assoc. }
  destruct Hfail as [->|(stdout & -> & Hjson)]; steps; [done|].
  rewrite Hjson. by steps.
Qed.

Lemma main_menu_detect_kept p n stdout v tr :
  json_loads stdout = Ret v →
  truth v = true →
  main_menu_detect p n (Completed stdout) tr
  = (Ret (FromLinguist value (Some v)), tr ++ [EvRun (linguist_argv p)]).
Proof.
  intros Hjson Htruth. unfold AJ.main_menu_detect. steps.
  rewrite (detect_with_linguist_parsed _ _ _ _ Hjson). cbn [falsy].
  rewrite Htruth. by steps.
Qed.

Lemma main_menu_detect_after tr0 p n o tr :
  (detect_with_linguist p o tr = (Ret None, tr0)
   ∨ ∃ v, detect_with_linguist p o tr = (Ret (Some v), tr0) ∧ truth v = false) →
  ∃ result tr',
    detect p n tr0 = (Ret result, tr')
    ∧ main_menu_detect p n o tr = (Ret (FromPygments value result), tr').
Proof.
  intros Hlinguist.
  destruct (pygments_language_detect_returns guess_lexer_for_filename
              get_lexer_for_filename p n tr0) as (result & tr' & Hdetect).
  exists result, tr'. split; [done|].
  unfold AJ.main_menu_detect. steps.
  destruct Hlinguist as [->|(v & -> & Htruth)]; cbn [falsy]; rewrite ?Htruth;
    cbn [negb]; steps; rewrite Hdetect; by steps.
Qed.

(** X11. The external result wins. When github-linguist completes and its
    output parses to a value that is true in a condition,
    [detect_with_linguist] returns that value and prints nothing, and the
    menu keeps it without calling [pygments_language_detect]: the only event
    is the run of the tool, so no file is opened, whatever is at the path. *)
Theorem linguist_result_takes_precedence p n stdout v tr :
  json_loads stdout = Ret v →
  truth v = true →
  detect_with_linguist p (Completed stdout) tr
  = (Ret (Some v), tr ++ [EvRun (linguist_argv p)])
  ∧ main_menu_detect p n (Completed stdout) tr
    = (Ret (FromLinguist value (Some v)), tr ++ [EvRun (linguist_argv p)]).
Proof.
  intros Hjson Htruth. split; [by apply detect_with_linguist_parsed|].
  by apply main_menu_detect_kept.
Qed.

(** X12. An empty answer of the tool counts as no answer. When
    github-linguist completes and its output parses to a value that is
    false in a condition (an empty object, [null], 0), the menu falls back
    to [pygments_language_detect] on the same path, without any notice. *)
Theorem empty_linguist_result_falls_back p n stdout v tr :
  json_loads stdout = Ret v →
  truth v = false →
  ∃ result tr',
    detect p n (tr ++ [EvRun (linguist_argv p)]) = (Ret result, tr')
    ∧ main_menu_detect p n (Completed stdout) tr
      = (Ret (FromPygments value result), tr').
Proof.
  intros Hjson Htruth. apply main_menu_detect_after.
  right. exists v. split; [by apply detect_with_linguist_parsed|done].
Qed.

(** X14. What is printed when the tool fails. A missing executable
    ([FileNotFoundError]) gives the one line that github-linguist was not
    found. Every other exception, a timeout, a non-zero exit status or
    output that is not JSON among them, gives two lines: the text of the
    exception, and a line saying that git was not found. In both cases
    [None] is returned. *)
Theorem linguist_failure_notices p o e tr :
  (o = RunRaises e ∨ ∃ stdout, o = Completed stdout ∧ json_loads stdout = Raise e) →
  (isinstance e FileNotFoundError = true →
   detect_with_linguist p o tr
   = (Ret None,
      tr ++ [EvRun (linguist_argv p);
             EvPrint "ℹ️ github-linguist not found. Using fallback methods..."]))
  ∧ (isinstance e FileNotFoundError = false →
     detect_with_linguist p o tr
     = (Ret None,
        tr ++ [EvRun (linguist_argv p);
               EvPrint ("⚠️ Linguist error: " +:+ exn_str e);
               EvPrint (newline +:+ "❌ git not found, Using fallback methods...")])).
Proof.
  intros Hfail. rewrite (detect_with_linguist_raised p o e tr Hfail).
  split; by intros ->.
Qed.

End Linguist_properties.

(* ===================================================================== *)
(** ** Sorting by value *)
(* ===================================================================== *)

Lemma insert_by_value_permutation item sorted :
  insert_by_value item sorted ≡ₚ item :: sorted.
Proof.
  induction sorted as [|item' sorted IH]; [done|]. cbn.
  destruct (Qle_bool _ _); [done|]. rewrite IH. apply perm_swap.
Qed.

Lemma insert_by_value_sorted item sorted :
  Sorted at_least sorted → Sorted at_least (insert_by_value item sorted).
Proof.
  induction 1 as [|item' sorted Hsorted IH Hhd]; cbn [insert_by_value].
  - by repeat constructor.
  - destruct (Qle_bool (real_value item'.2) (real_value item.2)) eqn:Hle.
    + apply Qle_bool_iff in Hle. by repeat constructor.
    + assert (Hlt : at_least item' item).
      { unfold at_least. apply Qlt_le_weak, Qnot_le_lt.
        intros Hcontra%Qle_bool_iff. congruence. }
      constructor; [done|].
      destruct Hhd as [|item'' sorted' Hrel]; cbn [insert_by_value]; [by constructor|].
      destruct (Qle_bool (real_value item''.2) (real_value item.2)); by constructor.
Qed.

Lemma sorted_by_value_permutation items : sorted_by_value items ≡ₚ items.
Proof.
  induction items as [|item items IH]; [done|].
  cbn. by rewrite insert_by_value_permutation, IH.
Qed.

Lemma sorted_by_value_sorted items : Sorted at_least (sorted_by_value items).
Proof.
  induction items as [|item items IH]; [constructor|].
  cbn. by apply insert_by_value_sorted.
Qed.

(* ===================================================================== *)
(** ** Properties of the display *)
(* ===================================================================== *)

Section Display_properties.

Variable guess_lexer_for_filename : string → list N → res string.
Variable get_lexer_for_filename : string → res string.

#[local] Abbreviation detect := (pygments_language_detect guess_lexer_for_filename get_lexer_for_filename).
#[local] Abbreviation label_of := (label_of guess_lexer_for_filename get_lexer_for_filename).
#[local] Abbreviation labels := (labels guess_lexer_for_filename get_lexer_for_filename).

#[local] Ltac steps :=
  repeat (rewrite ?run_try_except, ?run_bind, ?run_lift, ?run_ret, ?run_raise,
            ?run_emit, ?select_cons, ?select_nil; cbn [fst snd]).

Lemma run_print line tr : print line tr = (Ret (), tr ++ [EvPrint line]).
Proof. reflexivity. Qed.

Lemma display_results_single lang x tr :
  equals_100 x = true →
  display_results [(lang, x)] tr
  = (Ret (), tr ++ [EvPrint (newline +:+ "🔍 Language: " +:+ lang)]).
Proof. intros Hx. unfold display_results. cbn. by rewrite Hx. Qed.

(** X15. Scanning a folder without regular files ends with the one line
    'No results could be generated': the scan returns the empty
    dictionary, which [display_results] takes for no result. *)
Theorem empty_folder_displays_no_results p children tr :
  regular_files (rglob p (Directory children)) = [] →
  ∃ result,
    detect p (Directory children) tr = (Ret result, tr)
    ∧ display_results (map_to_list result) tr
      = (Ret (), tr ++ [EvPrint "❌ No results could be generated"]).
Proof.
  intros Hnone. exists ∅. split.
  - rewrite (detect_directory guess_lexer_for_filename get_lexer_for_filename).
    by rewrite for_each_visit_no_files.
  - by rewrite map_to_list_empty.
Qed.

(** X16. The result for a single file is always displayed as one line,
    'Language: ' followed by the label of the file. *)
Theorem single_file_displays_its_label file d tr :
  ∃ result tr',
    detect file (Regular d) tr = (Ret result, tr')
    ∧ display_results (map_to_list result) tr'
      = (Ret (), tr' ++ [EvPrint (newline +:+ "🔍 Language: " +:+ label_of file d)]).
Proof.
  eexists _, _. split; [apply detect_file_label|].
  unfold single. rewrite map_to_list_singleton. by apply display_results_single.
Qed.

Lemma occurrences_all label ls :
  Forall (λ l, l = label) ls → occurrences label ls = Z.of_nat (length ls).
Proof.
  induction 1 as [|l ls -> _ IH]; [done|].
  rewrite occurrences_cons, IH, bool_decide_eq_true_2 by done. cbn [length]. lia.
Qed.

(** X17. A folder whose regular files all resolve to one label is
    displayed like a single file: the scan returns that label with 100.0,
    a dictionary of one entry equal to 100, and [display_results] prints
    'Language: ' and the label instead of a breakdown. *)
Theorem uniform_folder_displays_as_single_file p children label tr :
  labels (rglob p (Directory children)) ≠ [] →
  Forall (λ l, l = label) (labels (rglob p (Directory children))) →
  ∃ x tr',
    detect p (Directory children) tr = (Ret {[ label := Float x ]}, tr')
    ∧ (x == 100)%Q
    ∧ display_results (map_to_list ({[ label := Float x ]} : gmap string number)) tr'
      = (Ret (), tr' ++ [EvPrint (newline +:+ "🔍 Language: " +:+ label)]).
Proof.
  intros Hsome Hall.
  set (ls := labels (rglob p (Directory children))) in *.
  assert (Hn : 0 < Z.of_nat (length ls)) by (destruct ls; [done|cbn; lia]).
  assert (Htally : tally ls ∅ = {[ label := Z.of_nat (length ls) ]}).
  { apply map_eq. intros l. rewrite tally_lookup.
    destruct (decide (l = label)) as [->|Hne].
    - rewrite lookup_singleton_eq, bool_decide_eq_true_2.
      + unfold count. rewrite lookup_empty. cbn. by rewrite occurrences_all.
      + destruct ls as [|l ls]; [done|]. apply Forall_cons in Hall as [-> _]. left.
    - rewrite lookup_singleton_ne by done.
      rewrite bool_decide_eq_false_2; [by rewrite lookup_empty|].
      intros Hin. by pose proof (proj1 (Forall_forall (λ l, l = label) ls) Hall l Hin). }
  exists (percent (Z.of_nat (length ls)) (Z.of_nat (length ls))). eexists.
  split; [|split].
  - rewrite (detect_directory guess_lexer_for_filename get_lexer_for_filename).
    rewrite for_each_visit_run. cbn [language_stats total_files].
    fold ls. rewrite Z.add_0_l.
    rewrite breakdown_positive by (cbn [total_files]; lia).
    cbn [language_stats total_files]. by rewrite Htally, map_fmap_singleton.
  - by apply percent_whole.
  - rewrite map_to_list_singleton. apply display_results_single.
    unfold equals_100. apply Qeq_bool_iff. by apply percent_whole.
Qed.

Lemma run_print_line item tr :
  print_line item tr
  = if beyond_floats item.2
    then (Raise (mk_exn OverflowError "int too large to convert to float"), tr)
    else (Ret (), tr ++ [EvPrint (breakdown_line item)]).
Proof.
  unfold print_line, to_float, breakdown_line. rewrite run_bind, run_lift.
  by destruct (beyond_floats item.2).
Qed.

Lemma for_each_print_line before rest tr :
  Forall (λ item, beyond_floats item.2 = false) before →
  for_each (λ item _, print_line item) (before ++ rest) () tr
  = for_each (λ item _, print_line item) rest ()
      (tr ++ (EvPrint ∘ breakdown_line <$> before)).
Proof.
  intros Hfit. revert tr. induction Hfit as [|item before Hitem _ IH]; intros tr.
  - cbn. by rewrite app_nil_r.
  - cbn [app]. rewrite run_for_each_cons, run_print_line, Hitem, IH.
    cbn. by rewrite <- app_assoc.
Qed.

(** X18. A result with two or more labels is displayed as a breakdown:
    the heading, then one line per label, each label once, by decreasing
    value. The lines are printed one after the other, and a value that is
    an int beyond the floats stops the display with an [OverflowError]
    after the lines before it. *)
Theorem breakdown_lines_are_sorted results tr :
  (2 ≤ length results)%nat →
  ∃ lines,
    lines ≡ₚ results
    ∧ Sorted at_least lines
    ∧ (Forall (λ item, beyond_floats item.2 = false) results →
       display_results results tr
       = (Ret (), tr ++ EvPrint (newline +:+ "📊 Language Breakdown:")
                     :: (EvPrint ∘ breakdown_line <$> lines)))
    ∧ (∀ before item after,
         lines = before ++ item :: after →
         Forall (λ item, beyond_floats item.2 = false) before →
         beyond_floats item.2 = true →
         display_results results tr
         = (Raise (mk_exn OverflowError "int too large to convert to float"),
            tr ++ EvPrint (newline +:+ "📊 Language Breakdown:")
               :: (EvPrint ∘ breakdown_line <$> before))).
Proof.
  intros Hlen. exists (sorted_by_value results).
  split; [apply sorted_by_value_permutation|].
  split; [apply sorted_by_value_sorted|].
  assert (Hrun : display_results results tr
                 = for_each (λ item _, print_line item) (sorted_by_value results) ()
                     (tr ++ [EvPrint (newline +:+ "📊 Language Breakdown:")])).
  { destruct results as [|[lang x] rest]; [cbn in Hlen; lia|].
    unfold display_results.
    rewrite bool_decide_eq_false_2 by (cbn in *; lia). cbn [andb].
    by rewrite run_bind, run_print. }
  split.
  - intros Hfit. rewrite Hrun.
    rewrite <- (app_nil_r (sorted_by_value results)) at 1.
    rewrite for_each_print_line.
    + cbn. by rewrite <- app_assoc.
    + apply Forall_forall. intros item Hin.
      apply (proj1 (Forall_forall _ results) Hfit).
      by rewrite <- (sorted_by_value_permutation results).
  - intros before item after Hlines Hfit Hitem. rewrite Hrun, Hlines.
    rewrite for_each_print_line by done.
    rewrite run_for_each_cons, run_print_line, Hitem. by rewrite <- app_assoc.
Qed.

End Display_properties.

(* ===================================================================== *)
(** ** Properties of the installation *)
(* ===================================================================== *)

Section Installation_properties.

Variable sys_executable : string.
Variable run_of : list string → run.

#[local] Abbreviation install_dependencies := (install_dependencies sys_executable run_of).
#[local] Abbreviation pip_argv := (pip_argv sys_executable).
#[local] Abbreviation commands := (commands sys_executable).

(** One guarded command: it is run; a [CalledProcessError] is handled,
    anything else raised goes on. *)
Lemma run_guarded cmd (h : exn → M unit) tr :
  try_except (subprocess_run cmd (run_of cmd);; mret ()) [(CalledProcessError, h)] tr
  = match run_of cmd with
    | Completed _ => (Ret (), tr ++ [EvRun cmd])
    | RunRaises e =>
        if isinstance e CalledProcessError
        then h e (tr ++ [EvRun cmd])
        else (Raise e, tr ++ [EvRun cmd])
    end.
Proof.
  rewrite run_try_except, run_bind, run_subprocess_run.
  destruct (run_of cmd) as [e|stdout]; [|done].
  rewrite select_cons, select_nil. by destruct (isinstance e CalledProcessError).
Qed.

Lemma run_pip (h : exn → M unit) tr :
  try_except (subprocess_run pip_argv (run_of pip_argv);; print success_message)
    [(CalledProcessError, h)] tr
  = match run_of pip_argv with
    | Completed _ => (Ret (), tr ++ [EvRun pip_argv; EvPrint success_message])
    | RunRaises e =>
        if isinstance e CalledProcessError
        then h e (tr ++ [EvRun pip_argv])
        else (Raise e, tr ++ [EvRun pip_argv])
    end.
Proof.
  rewrite run_try_except, run_bind, run_subprocess_run.
  destruct (run_of pip_argv) as [e|stdout].
  - rewrite select_cons, select_nil. by destruct (isinstance e CalledProcessError).
  - rewrite run_print. by rewrite <- app_assoc.
Qed.

#[local] Ltac go :=
  repeat (rewrite ?run_bind, ?run_ret, ?run_print, ?run_for_each_cons, ?run_guarded,
            ?run_pip; cbn [for_each fst snd]).

#[local] Ltac command cmd :=
  let e := fresh "e" in
  let He := fresh "He" in
  destruct (run_of cmd) as [e|?] eqn:?;
    [destruct (isinstance e CalledProcessError) eqn:He|]; go.

#[local] Ltac start :=
  unfold AJ.install_dependencies, system_deps, gem_deps;
  change "✅ All dependencies installed successfully" with success_message; go.

Lemma tolerated_raise e : tolerated (RunRaises e) = isinstance e CalledProcessError.
Proof. reflexivity. Qed.

(** X19. A command that completes or exits with an error status does not
    stop the installation: if each of the four commands does one or the
    other, [install_dependencies] returns normally and has run all four, in
    the order update, install, gem, pip. *)
Theorem failed_commands_do_not_stop_the_installation tr :
  (∀ cmd, cmd ∈ commands → tolerated (run_of cmd) = true) →
  ∃ evs, install_dependencies tr = (Ret (), tr ++ evs)
         ∧ commands_run evs = commands.
Proof.
  intros Htol.
  pose proof (Htol ["sudo"; "apt-get"; "update"] ltac:(set_solver)) as H1.
  pose proof (Htol ["sudo"; "apt-get"; "install"; "-y"; "python3-dev"; "python3-pip";
                    "build-essential"; "ruby"; "ruby-dev"] ltac:(set_solver)) as H2.
  pose proof (Htol ["sudo"; "gem"; "install"; "github-linguist"] ltac:(set_solver)) as H3.
  pose proof (Htol pip_argv ltac:(set_solver)) as H4.
  clear Htol. start.
  command ["sudo"; "apt-get"; "update"];
    try (rewrite tolerated_raise in H1; congruence);
  command ["sudo"; "apt-get"; "install"; "-y"; "python3-dev"; "python3-pip";
           "build-essential"; "ruby"; "ruby-dev"];
    try (rewrite tolerated_raise in H2; congruence);
  command ["sudo"; "gem"; "install"; "github-linguist"];
    try (rewrite tolerated_raise in H3; congruence);
  command (AJ.pip_argv sys_executable);
    try (rewrite tolerated_raise in H4; congruence);
  (eexists; split; [by rewrite <- ?app_assoc|done]).
Qed.

#[local] Ltac absent Hin :=
  repeat (apply elem_of_cons in Hin as [Hin|Hin];
          [try discriminate Hin; injection Hin as Hin; cbn in Hin; discriminate Hin|]);
  by apply elem_of_nil in Hin.

(** X20. The line that all dependencies were installed tells about [pip]
    alone: when each of the three [sudo] commands completes or exits with an
    error status, the line is printed exactly when the [pip] command
    completes, also after [apt-get] and [gem] have failed. *)
Theorem success_message_tells_about_pip_only tr :
  (∀ cmd, cmd ∈ system_deps ++ gem_deps → tolerated (run_of cmd) = true) →
  ∃ r evs,
    install_dependencies tr = (r, tr ++ evs)
    ∧ (EvPrint success_message ∈ evs ↔ ∃ stdout, run_of pip_argv = Completed stdout).
Proof.
  intros Htol.
  pose proof (Htol ["sudo"; "apt-get"; "update"] ltac:(set_solver)) as H1.
  pose proof (Htol ["sudo"; "apt-get"; "install"; "-y"; "python3-dev"; "python3-pip";
                    "build-essential"; "ruby"; "ruby-dev"] ltac:(set_solver)) as H2.
  pose proof (Htol ["sudo"; "gem"; "install"; "github-linguist"] ltac:(set_solver)) as H3.
  clear Htol. start.
  command ["sudo"; "apt-get"; "update"];
    try (rewrite tolerated_raise in H1; congruence);
  command ["sudo"; "apt-get"; "install"; "-y"; "python3-dev"; "python3-pip";
           "build-essential"; "ruby"; "ruby-dev"];
    try (rewrite tolerated_raise in H2; congruence);
  command ["sudo"; "gem"; "install"; "github-linguist"];
    try (rewrite tolerated_raise in H3; congruence);
  command (AJ.pip_argv sys_executable);
  (eexists _, _; split; [by rewrite <- ?app_assoc|]);
  (split; [intros Hin|intros [out Hdone]]);
    first [ congruence
          | by eexists
          | absent Hin
          | rewrite ?elem_of_app, ?elem_of_cons; tauto ].
Qed.

(** X21. Only exit statuses are tolerated. If one of the four commands
    raises anything other than a [CalledProcessError], a missing [sudo]
    for instance, while the commands before it completed or exited with an
    error status, the exception leaves [install_dependencies] and the
    commands after it are not run. *)
Theorem other_exceptions_stop_the_installation i cmd e tr :
  commands !! i = Some cmd →
  run_of cmd = RunRaises e →
  isinstance e CalledProcessError = false →
  (∀ cmd', cmd' ∈ take i commands → tolerated (run_of cmd') = true) →
  ∃ evs, install_dependencies tr = (Raise e, tr ++ evs)
         ∧ commands_run evs = take (S i) commands.
Proof.
  intros Hcmd Hraise Hother Htol.
  destruct i as [|[|[|[|i]]]]; cbn in Hcmd; [..|done]; injection Hcmd as <-.
  - start. rewrite Hraise, Hother.
    eexists. split; [by rewrite <- ?app_assoc|done].
  - pose proof (Htol ["sudo"; "apt-get"; "update"] ltac:(cbn; set_solver)) as H1.
    start.
    command ["sudo"; "apt-get"; "update"];
      try (rewrite tolerated_raise in H1; congruence);
    rewrite Hraise, Hother;
    (eexists; split; [by rewrite <- ?app_assoc|done]).
  - pose proof (Htol ["sudo"; "apt-get"; "update"] ltac:(cbn; set_solver)) as H1.
    pose proof (Htol ["sudo"; "apt-get"; "install"; "-y"; "python3-dev"; "python3-pip";
                      "build-essential"; "ruby"; "ruby-dev"] ltac:(cbn; set_solver)) as H2.
    start.
    command ["sudo"; "apt-get"; "update"];
      try (rewrite tolerated_raise in H1; congruence);
    command ["sudo"; "apt-get"; "install"; "-y"; "python3-dev"; "python3-pip";
             "build-essential"; "ruby"; "ruby-dev"];
      try (rewrite tolerated_raise in H2; congruence);
    rewrite Hraise, Hother;
    (eexists; split; [by rewrite <- ?app_assoc|done]).
  - pose proof (Htol ["sudo"; "apt-get"; "update"] ltac:(cbn; set_solver)) as H1.
    pose proof (Htol ["sudo"; "apt-get"; "install"; "-y"; "python3-dev"; "python3-pip";
                      "build-essential"; "ruby"; "ruby-dev"] ltac:(cbn; set_solver)) as H2.
    pose proof (Htol ["sudo"; "gem"; "install"; "github-linguist"]
                  ltac:(cbn; set_solver)) as H3.
    change (run_of (AJ.pip_argv sys_executable) = RunRaises e) in Hraise.
    start.
    command ["sudo"; "apt-get"; "update"];
      try (rewrite tolerated_raise in H1; congruence);
    command ["sudo"; "apt-get"; "install"; "-y"; "python3-dev"; "python3-pip";
             "build-essential"; "ruby"; "ruby-dev"];
      try (rewrite tolerated_raise in H2; congruence);
    command ["sudo"; "gem"; "install"; "github-linguist"];
      try (rewrite tolerated_raise in H3; congruence);
    rewrite Hraise, Hother;
    (eexists; split; [by rewrite <- ?app_assoc|done]).
Qed.

End Installation_properties.

(* ===================================================================== *)
(** ** Paths on which stat fails *)
(* ===================================================================== *)

(** The result of a folder from the labels of its files: each label with
    the percentage of its occurrences, and nothing without files. *)
Lemma breakdown_of_tally ls tr :
  ∃ result,
    breakdown (mk_locals (tally ls ∅) (0 + Z.of_nat (length ls))) tr = (Ret result, tr)
    ∧ ∀ label,
        result !! label
        = if bool_decide (label ∈ ls)
          then Some (Float (percent (occurrences label ls) (Z.of_nat (length ls))))
          else None.
Proof.
  destruct ls as [|l ls].
  - exists ∅. split; [done|]. intros label.
    rewrite lookup_empty, bool_decide_eq_false_2; [done|]. by intros ?%elem_of_nil.
  - rewrite breakdown_positive by (cbn; lia). eexists. split; [done|].
    intros label. cbn [language_stats total_files].
    rewrite lookup_fmap, tally_lookup.
    case_bool_decide; [|by rewrite lookup_empty].
    cbn. unfold count. rewrite lookup_empty. cbn. do 3 f_equal.
Qed.

Lemma stat_failure_elem entries e :
  Stat.failure entries = Some e → ∃ file, (file, Stat.Fails e) ∈ entries.
Proof.
  induction entries as [|[file [e'|d|children]] entries IH]; cbn [Stat.failure].
  - done.
  - intros [= ->]. exists file. left.
  - intros [file' Hin]%IH. exists file'. by right.
  - intros [file' Hin]%IH. exists file'. by right.
Qed.

(** The walk stops at the first entry on which [stat] raises. *)
Lemma stat_walk_stops before file e after :
  Stat.failure before = None →
  Stat.failure (before ++ (file, Stat.Fails e) :: after) = Some e
  ∧ Stat.walk_events (before ++ (file, Stat.Fails e) :: after) = Stat.walk_events before.
Proof.
  induction before as [|[file' [e'|d|children]] before IH];
    cbn [app Stat.failure Stat.walk_events]; intros Hnone.
  - done.
  - done.
  - destruct (IH Hnone) as [-> ->]. done.
  - by apply IH.
Qed.

Lemma stat_walk_events_opens entries file :
  EvOpen file ∈ Stat.walk_events entries →
  ∃ d, (file, Stat.Regular d) ∈ entries ∧ suffix file ∉ binary_extensions.
Proof.
  induction entries as [|[file' [e|d|children]] entries IH]; cbn [Stat.walk_events].
  - by intros ?%elem_of_nil.
  - by intros ?%elem_of_nil.
  - intros [Hhere|Hrest]%elem_of_app.
    + case_bool_decide as Hext; [by apply elem_of_nil in Hhere|].
      assert (file = file') as ->.
      { destruct d; cbn in Hhere; set_unfold; naive_solver. }
      exists d. split; [left|done].
    + destruct (IH Hrest) as (d' & Hin & Hext). exists d'. split; [by right|done].
  - intros Hrest. destruct (IH Hrest) as (d' & Hin & Hext).
    exists d'. split; [by right|done].
Qed.

Lemma stat_walk_events_kinds entries ev :
  ev ∈ Stat.walk_events entries → ∃ file, ev = EvOpen file ∨ ev = EvRead file 8192%N.
Proof.
  induction entries as [|[file' [e|d|children]] entries IH]; cbn [Stat.walk_events].
  - by intros ?%elem_of_nil.
  - by intros ?%elem_of_nil.
  - intros [Hhere|Hrest]%elem_of_app; [|by apply IH].
    case_bool_decide; [by apply elem_of_nil in Hhere|].
    exists file'. destruct d; cbn in Hhere; set_unfold; naive_solver.
  - apply IH.
Qed.

(** In a tree where every [stat] succeeds [rglob] yields the same entries
    in the same order. *)
Lemma stat_rglob_of_node n p :
  Stat.rglob p (Stat.of_node n)
  = (λ entry : path * node, (entry.1, Stat.of_node entry.2)) <$> rglob p n.
Proof.
  revert n p. fix IH 1. intros [d|children] p; [done|].
  cbn [Stat.of_node Stat.rglob rglob]. rewrite fmap_app. f_equal.
  - induction children as [|[nm c] cs IHcs]; [done|]. cbn. by rewrite IHcs.
  - induction children as [|[nm c] cs IHcs]; [done|].
    cbn. rewrite fmap_app, IH. by rewrite IHcs.
Qed.

Section Stat_properties.

Variable guess_lexer_for_filename : string → list N → res string.
Variable get_lexer_for_filename : string → res string.
Variable value : Type.
Variable truth : value → bool.
Variable json_loads : string → res value.

#[local] Abbreviation label_of := (label_of guess_lexer_for_filename get_lexer_for_filename).
#[local] Abbreviation stat_visit := (Stat.visit guess_lexer_for_filename get_lexer_for_filename).
#[local] Abbreviation stat_walk := (Stat.walk guess_lexer_for_filename get_lexer_for_filename).
#[local] Abbreviation stat_detect :=
  (Stat.pygments_language_detect guess_lexer_for_filename get_lexer_for_filename).
#[local] Abbreviation stat_labels := (Stat.labels guess_lexer_for_filename get_lexer_for_filename).
#[local] Abbreviation detect_with_linguist := (detect_with_linguist value json_loads).
#[local] Abbreviation stat_menu :=
  (Stat.main_menu_detect guess_lexer_for_filename get_lexer_for_filename value truth json_loads).

#[local] Ltac steps :=
  repeat (rewrite ?run_try_except, ?run_bind, ?run_lift, ?run_ret, ?run_raise,
            ?run_emit, ?select_cons, ?select_nil; cbn [fst snd]).

(** The loop tallies the labels of the regular files up to the first entry
    on which [stat] raises, and raises there. *)
Lemma for_each_stat_visit entries s tr :
  for_each stat_visit entries s tr
  = (match Stat.failure entries with
     | Some e => Raise e
     | None => Ret (mk_locals (tally (stat_labels entries) (language_stats s))
                      (total_files s + Z.of_nat (length (stat_labels entries))))
     end, tr ++ Stat.walk_events entries).
Proof.
  revert s tr. induction entries as [|[file [e|d|children]] entries IH]; intros s tr.
  - cbn. rewrite app_nil_r, Z.add_0_r. by destruct s.
  - rewrite run_for_each_cons. cbn. by rewrite app_nil_r.
  - rewrite run_for_each_cons.
    change (stat_visit (file, Stat.Regular d) s tr)
      with (visit guess_lexer_for_filename get_lexer_for_filename (file, Regular d) s tr).
    rewrite visit_file_label, IH.
    cbn [Stat.failure Stat.labels Stat.walk_events length tally foldl
           language_stats total_files].
    rewrite <- app_assoc. destruct (Stat.failure entries); [done|].
    do 2 f_equal. f_equal. lia.
  - rewrite run_for_each_cons. cbn [Stat.visit]. rewrite run_ret. by rewrite IH.
Qed.

(** The two embeddings of [pygments_language_detect] agree on the trees in
    which every [stat] succeeds. *)
Lemma stat_detect_of_node p n tr :
  stat_detect p (Stat.of_node n) tr
  = pygments_language_detect guess_lexer_for_filename get_lexer_for_filename p n tr.
Proof.
  destruct n as [d|children]; [done|].
  change (stat_detect p (Stat.of_node (Directory children)) tr)
    with ((s ← for_each stat_visit (Stat.rglob p (Stat.of_node (Directory children)))
                 (mk_locals ∅ 0); breakdown s) tr).
  rewrite (detect_directory guess_lexer_for_filename get_lexer_for_filename).
  rewrite run_bind, stat_rglob_of_node.
  assert (Hsame : ∀ entries s tr,
    for_each stat_visit
      ((λ entry : path * node, (entry.1, Stat.of_node entry.2)) <$> entries) s tr
    = for_each (visit guess_lexer_for_filename get_lexer_for_filename) entries s tr).
  { clear. induction entries as [|[file [d|children]] entries IH]; intros s tr; [done|..].
    - rewrite fmap_cons, !run_for_each_cons.
      change (stat_visit (((file, Regular d).1, Stat.of_node (file, Regular d).2)) s tr)
        with (visit guess_lexer_for_filename get_lexer_for_filename (file, Regular d) s tr).
      destruct (visit _ _ _ s tr) as [[s'|e] tr']; [apply IH|done].
    - rewrite fmap_cons, !run_for_each_cons. cbn. apply IH. }
  by rewrite Hsame.
Qed.

(** What [pygments_language_detect] comes to on a folder. *)
Lemma stat_detect_directory p children tr :
  match Stat.failure (Stat.rglob p (Stat.Directory children)) with
  | Some e =>
      stat_detect p (Stat.Directory children) tr
      = (Raise e, tr ++ Stat.walk_events (Stat.rglob p (Stat.Directory children)))
  | None =>
      ∃ result,
        stat_detect p (Stat.Directory children) tr
        = (Ret result, tr ++ Stat.walk_events (Stat.rglob p (Stat.Directory children)))
        ∧ ∀ label,
            result !! label
            = if bool_decide (label ∈ stat_labels (Stat.rglob p (Stat.Directory children)))
              then Some (Float (percent
                     (occurrences label (stat_labels (Stat.rglob p (Stat.Directory children))))
                     (Z.of_nat (length (stat_labels (Stat.rglob p (Stat.Directory children)))))))
              else None
  end.
Proof.
  change (stat_detect p (Stat.Directory children) tr)
    with ((s ← for_each stat_visit (Stat.rglob p (Stat.Directory children))
                 (mk_locals ∅ 0); breakdown s) tr).
  rewrite run_bind, for_each_stat_visit. cbn [language_stats total_files].
  destruct (Stat.failure (Stat.rglob p (Stat.Directory children))); [done|].
  destruct (breakdown_of_tally (stat_labels (Stat.rglob p (Stat.Directory children)))
              (tr ++ Stat.walk_events (Stat.rglob p (Stat.Directory children))))
    as (result & -> & Hlookup).
  by exists result.
Qed.

(** After a failure of the tool the menu goes on with
    [pygments_language_detect]. *)
Lemma stat_menu_after p n o tr tr0 :
  detect_with_linguist p o tr = (Ret None, tr0) →
  stat_menu p n o tr = (d ← stat_detect p n; mret (FromPygments value d)) tr0.
Proof.
  intros Hlinguist. unfold Stat.main_menu_detect.
  rewrite run_bind, Hlinguist. done.
Qed.

(** C9, as the code has it. When running github-linguist raises (the
    program is absent, it exits with an error, it exceeds the 30 seconds)
    or its output is not JSON, [detect_with_linguist] prints a notice and
    returns [None] instead of raising, and the menu goes on with
    [pygments_language_detect] on the same path. What that call comes to is
    the outcome: the label of a regular file with 100, the percentage of
    each label of a folder, and the exception of [is_file()] where [stat]
    fails on the path or on an entry of the walk, which nothing catches. *)
Theorem linguist_failure_falls_back p n o tr :
  match o with
  | RunRaises _ => True
  | Completed stdout => ∃ e, json_loads stdout = Raise e
  end →
  ∃ notices,
    notices ≠ []
    ∧ Forall (λ ev, ∃ line, ev = EvPrint line) notices
    ∧ detect_with_linguist p o tr
      = (Ret None, tr ++ EvRun (linguist_argv p) :: notices)
    ∧ stat_menu p n o tr
      = (d ← stat_detect p n; mret (FromPygments value d))
          (tr ++ EvRun (linguist_argv p) :: notices)
    ∧ match n with
      | Stat.Fails e =>
          stat_menu p n o tr = (Raise e, tr ++ EvRun (linguist_argv p) :: notices)
      | Stat.Regular d =>
          stat_menu p n o tr
          = (Ret (FromPygments value (single (label_of p d))),
             (tr ++ EvRun (linguist_argv p) :: notices)
             ++ if bool_decide (suffix p ∈ binary_extensions)
                then [] else read_events p d)
      | Stat.Directory _ =>
          match Stat.failure (Stat.rglob p n) with
          | Some e =>
              stat_menu p n o tr
              = (Raise e,
                 (tr ++ EvRun (linguist_argv p) :: notices)
                 ++ Stat.walk_events (Stat.rglob p n))
          | None =>
              ∃ result,
                stat_menu p n o tr
                = (Ret (FromPygments value result),
                   (tr ++ EvRun (linguist_argv p) :: notices)
                   ++ Stat.walk_events (Stat.rglob p n))
                ∧ ∀ label,
                    result !! label
                    = if bool_decide (label ∈ stat_labels (Stat.rglob p n))
                      then Some (Float (percent
                             (occurrences label (stat_labels (Stat.rglob p n)))
                             (Z.of_nat (length (stat_labels (Stat.rglob p n))))))
                      else None
          end
      end.
Proof.
  intros Hfail.
  assert (∃ e, o = RunRaises e
               ∨ ∃ stdout, o = Completed stdout ∧ json_loads stdout = Raise e)
    as [e Hraised].
  { destruct o as [e|stdout]; [exists e; by left|].
    destruct Hfail as [e He]. exists e. right. by exists stdout. }
  pose proof (detect_with_linguist_raised value json_loads p o e tr Hraised) as Hlinguist.
  set (notices := if isinstance e FileNotFoundError
                  then [EvPrint "ℹ️ github-linguist not found. Using fallback methods..."]
                  else [EvPrint ("⚠️ Linguist error: " +:+ exn_str e);
                        EvPrint (newline +:+ "❌ git not found, Using fallback methods...")])
    in *.
  exists notices.
  split; [subst notices; by destruct (isinstance e FileNotFoundError)|].
  split.
  { subst notices. destruct (isinstance e FileNotFoundError);
      repeat constructor; by eexists. }
  split; [done|].
  rewrite (stat_menu_after p n o tr _ Hlinguist).
  split; [done|].
  set (tr0 := tr ++ EvRun (linguist_argv p) :: notices).
  rewrite run_bind.
  destruct n as [e'|d|children].
  - done.
  - change (stat_detect p (Stat.Regular d) tr0)
      with (pygments_language_detect guess_lexer_for_filename get_lexer_for_filename
              p (Regular d) tr0).
    by rewrite detect_file_label.
  - pose proof (stat_detect_directory p children tr0) as Hdetect.
    destruct (Stat.failure (Stat.rglob p (Stat.Directory children))).
    + by rewrite Hdetect.
    + destruct Hdetect as (result & -> & Hlookup). by exists result.
Qed.

(** X6. The folder walk, entry by entry in the order of [rglob]: it opens
    regular files only, and among them only those whose suffix is not a
    binary extension, each with one open and one read of 8192 bytes; it
    opens no directory, runs no command and prints nothing. It ends with
    the tally of the labels, unless [is_file()] raises on an entry: then the
    walk raises that exception and the entries after it are not visited. *)
Theorem walk_opens_only_files_it_reads p n tr :
  stat_walk p n tr
  = (match Stat.failure (Stat.rglob p n) with
     | Some e => Raise e
     | None => Ret (mk_locals (tally (stat_labels (Stat.rglob p n)) ∅)
                      (Z.of_nat (length (stat_labels (Stat.rglob p n)))))
     end, tr ++ Stat.walk_events (Stat.rglob p n))
  ∧ (∀ file, EvOpen file ∈ Stat.walk_events (Stat.rglob p n) →
       ∃ d, (file, Stat.Regular d) ∈ Stat.rglob p n ∧ suffix file ∉ binary_extensions)
  ∧ (∀ ev, ev ∈ Stat.walk_events (Stat.rglob p n) →
       ∃ file, ev = EvOpen file ∨ ev = EvRead file 8192%N)
  ∧ (∀ before file e after,
       Stat.rglob p n = before ++ (file, Stat.Fails e) :: after →
       Stat.failure before = None →
       stat_walk p n tr = (Raise e, tr ++ Stat.walk_events before)).
Proof.
  assert (Hrun : stat_walk p n tr
    = (match Stat.failure (Stat.rglob p n) with
       | Some e => Raise e
       | None => Ret (mk_locals (tally (stat_labels (Stat.rglob p n)) ∅)
                        (Z.of_nat (length (stat_labels (Stat.rglob p n)))))
       end, tr ++ Stat.walk_events (Stat.rglob p n))).
  { unfold Stat.walk. rewrite for_each_stat_visit. cbn [language_stats total_files].
    by rewrite Z.add_0_l. }
  split; [done|].
  split; [apply stat_walk_events_opens|].
  split; [apply stat_walk_events_kinds|].
  intros before file e after Hentries Hnone. rewrite Hrun, Hentries.
  by destruct (stat_walk_stops before file e after Hnone) as [-> ->].
Qed.

(** X13. The detection step of the menu raises nothing but what
    [is_file()] raises: whatever the tool does, it ends with a true value
    from the tool, with the dictionary of [pygments_language_detect], or
    with the exception of a [stat] that failed on the path or on an entry
    of the walk. No failure of the tool and no failure to open, read,
    decode or recognise a file leaves it. *)
Theorem main_menu_detect_raises_stat_failures_only p n o tr :
  ∃ r tr',
    stat_menu p n o tr = (r, tr')
    ∧ match r with
      | Ret (FromLinguist _ (Some v)) => truth v = true
      | Ret (FromLinguist _ None) => False
      | Ret (FromPygments _ _) => True
      | Raise e => n = Stat.Fails e ∨ ∃ file, (file, Stat.Fails e) ∈ Stat.rglob p n
      end.
Proof.
  assert (Hfallback : ∀ tr0,
    ∃ r tr', (d ← stat_detect p n; mret (FromPygments value d)) tr0 = (r, tr')
             ∧ match r with
               | Ret (FromLinguist _ (Some v)) => truth v = true
               | Ret (FromLinguist _ None) => False
               | Ret (FromPygments _ _) => True
               | Raise e => n = Stat.Fails e ∨ ∃ file, (file, Stat.Fails e) ∈ Stat.rglob p n
               end).
  { intros tr0. rewrite run_bind. destruct n as [e|d|children].
    - eexists _, _. split; [done|]. by left.
    - change (stat_detect p (Stat.Regular d) tr0)
        with (pygments_language_detect guess_lexer_for_filename get_lexer_for_filename
                p (Regular d) tr0).
      rewrite detect_file_label. by eexists _, _.
    - pose proof (stat_detect_directory p children tr0) as Hdetect.
      destruct (Stat.failure (Stat.rglob p (Stat.Directory children))) as [e|] eqn:Hfailure.
      + rewrite Hdetect. eexists _, _. split; [done|]. right.
        by apply stat_failure_elem.
      + destruct Hdetect as (result & -> & _). by eexists _, _. }
  destruct o as [e|stdout].
  - rewrite (stat_menu_after p n _ tr _
               (detect_with_linguist_raised value json_loads p _ e tr (or_introl eq_refl))).
    apply Hfallback.
  - destruct (json_loads stdout) as [v|e] eqn:Hjson.
    + pose proof (detect_with_linguist_parsed value json_loads p stdout v tr Hjson)
        as Hlinguist.
      unfold Stat.main_menu_detect. rewrite run_bind, Hlinguist. cbn [falsy].
      destruct (truth v) eqn:Htruth; cbn [negb].
      * by eexists _, _.
      * apply Hfallback.
    + assert (Hraised : Completed stdout = RunRaises e
                        ∨ ∃ stdout', Completed stdout = Completed stdout'
                                     ∧ json_loads stdout' = Raise e)
        by (right; by exists stdout).
      rewrite (stat_menu_after p n _ tr _
                 (detect_with_linguist_raised value json_loads p _ e tr Hraised)).
      apply Hfallback.
Qed.

End Stat_properties.

(* ===================================================================== *)
(** ** The further properties at concrete inputs *)
(* ===================================================================== *)

(** The order of [rglob]: the entries of a folder, then those of its
    subfolders one after the other. *)
Example rglob_order :
  (rglob [] Sample.nested).*1
  = [["b"]; ["a"]; ["c.txt"]; ["z.py"]; ["b"; "y.sh"]; ["b"; "sub"];
     ["b"; "sub"; "deep.txt"]; ["a"; "k"]; ["a"; "n.py"]; ["a"; "k"; "m.py"]]
  ∧ (Stat.rglob [] (Stat.of_node Sample.nested)).*1 = (rglob [] Sample.nested).*1.
Proof. split; vm_compute; reflexivity. Qed.

Lemma linguist_failure_falls_back_witness :
  ∃ notices,
    notices ≠ []
    ∧ Forall (λ ev, ∃ line, ev = EvPrint line) notices
    ∧ detect_with_linguist unit Sample.json_loads ["repo"] (RunRaises Sample.timed_out) []
      = (Ret None, [] ++ EvRun (linguist_argv ["repo"]) :: notices)
    ∧ Stat.main_menu_detect Sample.guess_lexer_for_filename Sample.get_lexer_for_filename
        unit (λ _, true) Sample.json_loads ["repo"] (Stat.of_node Sample.project)
        (RunRaises Sample.timed_out) []
      = (d ← Stat.pygments_language_detect
               Sample.guess_lexer_for_filename Sample.get_lexer_for_filename
               ["repo"] (Stat.of_node Sample.project);
         mret (FromPygments unit d))
          ([] ++ EvRun (linguist_argv ["repo"]) :: notices)
    ∧ ∃ result,
        Stat.main_menu_detect Sample.guess_lexer_for_filename Sample.get_lexer_for_filename
          unit (λ _, true) Sample.json_loads ["repo"] (Stat.of_node Sample.project)
          (RunRaises Sample.timed_out) []
        = (Ret (FromPygments unit result),
           ([] ++ EvRun (linguist_argv ["repo"]) :: notices)
           ++ Stat.walk_events (Stat.rglob ["repo"] (Stat.of_node Sample.project)))
        ∧ ∀ label,
            result !! label
            = if bool_decide
                   (label ∈ Stat.labels Sample.guess_lexer_for_filename
                              Sample.get_lexer_for_filename
                              (Stat.rglob ["repo"] (Stat.of_node Sample.project)))
              then Some (Float (percent
                     (occurrences label
                        (Stat.labels Sample.guess_lexer_for_filename
                           Sample.get_lexer_for_filename
                           (Stat.rglob ["repo"] (Stat.of_node Sample.project))))
                     (Z.of_nat (length
                        (Stat.labels Sample.guess_lexer_for_filename
                           Sample.get_lexer_for_filename
                           (Stat.rglob ["repo"] (Stat.of_node Sample.project)))))))
              else None.
Proof.
  apply (linguist_failure_falls_back
           Sample.guess_lexer_for_filename Sample.get_lexer_for_filename
           unit (λ _, true) Sample.json_loads
           ["repo"] (Stat.of_node Sample.project) (RunRaises Sample.timed_out) []).
  exact I.
Defined.

(** C9 as the specification words it fails: the tool times out, the menu
    falls back, and [is_file()] raises on a path that may not be examined.
    No result is produced and the exception leaves the detection step. *)
Lemma unreadable_path_counterexample :
  detect_with_linguist unit Sample.json_loads ["locked"; "notes.txt"]
    (RunRaises Sample.timed_out) []
  = (Ret None,
     [EvRun (linguist_argv ["locked"; "notes.txt"]);
      EvPrint "⚠️ Linguist error: timed out after 30 seconds";
      EvPrint (newline +:+ "❌ git not found, Using fallback methods...")])
  ∧ Stat.main_menu_detect Sample.guess_lexer_for_filename Sample.get_lexer_for_filename
      unit (λ _, true) Sample.json_loads ["locked"; "notes.txt"]
      (Stat.Fails Sample.denied) (RunRaises Sample.timed_out) []
    = (Raise Sample.denied,
       [EvRun (linguist_argv ["locked"; "notes.txt"]);
        EvPrint "⚠️ Linguist error: timed out after 30 seconds";
        EvPrint (newline +:+ "❌ git not found, Using fallback methods...")]).
Proof. split; vm_compute; reflexivity. Qed.

(** The walk of a folder with an entry that may not be examined: the
    entries of the folder come first, so the Python file is read and the
    image counted before [is_file()] raises on the entry of the subfolder. *)
Example locked_walk :
  (Stat.rglob ["repo"] Sample.locked).*1
  = [["repo"; "main.py"]; ["repo"; "private"]; ["repo"; "logo.png"];
     ["repo"; "private"; "key.txt"]]
  ∧ Stat.walk Sample.guess_lexer_for_filename Sample.get_lexer_for_filename
      ["repo"] Sample.locked []
    = (Raise Sample.denied,
       [EvOpen ["repo"; "main.py"]; EvRead ["repo"; "main.py"] 8192%N]).
Proof. split; vm_compute; reflexivity. Qed.


Lemma guessed_lexer_is_the_label_witness :
  Sample.detect ["repo"; "main.py"] (Regular (Bytes (Sample.ascii_bytes "print(1)"))) []
  = (Ret (single "Python"),
     [EvOpen ["repo"; "main.py"]; EvRead ["repo"; "main.py"] 8192%N])
  ∧ Sample.visit (["repo"; "main.py"], Regular (Bytes (Sample.ascii_bytes "print(1)")))
      (mk_locals ∅ 0) []
    = (Ret (mk_locals (increment "Python" ∅) (0 + 1)),
       [EvOpen ["repo"; "main.py"]; EvRead ["repo"; "main.py"] 8192%N]).
Proof.
  apply (guessed_lexer_is_the_label
           Sample.guess_lexer_for_filename Sample.get_lexer_for_filename
           ["repo"; "main.py"] (Sample.ascii_bytes "print(1)")
           [112; 114; 105; 110; 116; 40; 49; 41]%N "Python" (mk_locals ∅ 0) []).
  - vm_compute. intros H. discriminate H.
  - vm_compute. reflexivity.
  - vm_compute. reflexivity.
Defined.

Lemma filename_lexer_is_the_fallback_witness :
  pygments_language_detect Sample.guess_nothing Sample.get_lexer_for_filename
    ["repo"; "main.py"] (Regular (Bytes (Sample.ascii_bytes "print(1)"))) []
  = (Ret (single "Python"),
     [EvOpen ["repo"; "main.py"]; EvRead ["repo"; "main.py"] 8192%N])
  ∧ AJ.visit Sample.guess_nothing Sample.get_lexer_for_filename
      (["repo"; "main.py"], Regular (Bytes (Sample.ascii_bytes "print(1)")))
      (mk_locals ∅ 0) []
    = (Ret (mk_locals (increment "Python" ∅) (0 + 1)),
       [EvOpen ["repo"; "main.py"]; EvRead ["repo"; "main.py"] 8192%N]).
Proof.
  apply (filename_lexer_is_the_fallback
           Sample.guess_nothing Sample.get_lexer_for_filename
           ["repo"; "main.py"] (Sample.ascii_bytes "print(1)")
           [112; 114; 105; 110; 116; 40; 49; 41]%N
           (mk_exn ClassNotFound "no lexer for filename found")
           "Python" (mk_locals ∅ 0) []).
  - vm_compute. intros H. discriminate H.
  - vm_compute. reflexivity.
  - reflexivity.
  - reflexivity.
  - vm_compute. reflexivity.
Defined.

Lemma other_guess_failure_is_error_witness :
  pygments_language_detect Sample.guess_broken Sample.get_lexer_for_filename
    ["repo"; "main.py"] (Regular (Bytes (Sample.ascii_bytes "print(1)"))) []
  = (Ret (single "Error"),
     [EvOpen ["repo"; "main.py"]; EvRead ["repo"; "main.py"] 8192%N]).
Proof.
  apply (other_guess_failure_is_error
           Sample.guess_broken Sample.get_lexer_for_filename
           ["repo"; "main.py"] (Sample.ascii_bytes "print(1)")
           [112; 114; 105; 110; 116; 40; 49; 41]%N
           (mk_exn ZeroDivisionError "division by zero") []).
  - vm_compute. intros H. discriminate H.
  - vm_compute. reflexivity.
  - reflexivity.
  - vm_compute. reflexivity.
  - vm_compute. reflexivity.
Defined.

Lemma only_the_first_8192_bytes_count_witness :
  Sample.detect ["repo"; "a.txt"] (Regular (Bytes (Sample.long_line ++ [x61; xe2]))) []
  = Sample.detect ["repo"; "a.txt"] (Regular (Bytes (Sample.long_line ++ [x61; x62]))) []
  ∧ Sample.visit (["repo"; "a.txt"], Regular (Bytes (Sample.long_line ++ [x61; xe2])))
      (mk_locals ∅ 0) []
    = Sample.visit (["repo"; "a.txt"], Regular (Bytes (Sample.long_line ++ [x61; x62])))
        (mk_locals ∅ 0) [].
Proof.
  apply (only_the_first_8192_bytes_count
           Sample.guess_lexer_for_filename Sample.get_lexer_for_filename
           ["repo"; "a.txt"] (Sample.long_line ++ [x61; xe2])
           (Sample.long_line ++ [x61; x62]) (mk_locals ∅ 0) []).
  vm_compute. reflexivity.
Defined.

(** A text file of 8191 letters and a euro sign is valid UTF-8 as a whole
    and is labelled 'Binary'. *)
Lemma character_cut_at_8192_is_binary_witness :
  Sample.detect ["repo"; "a.txt"]
    (Regular (Bytes (Sample.long_line ++ xe2 :: [x82; xac]))) []
  = (Ret (single "Binary"),
     [EvOpen ["repo"; "a.txt"]; EvRead ["repo"; "a.txt"] 8192%N]).
Proof.
  apply (character_cut_at_8192_is_binary
           Sample.guess_lexer_for_filename Sample.get_lexer_for_filename
           ["repo"; "a.txt"] Sample.long_line xe2 [x82; xac] []).
  - vm_compute. intros H. discriminate H.
  - vm_compute. reflexivity.
  - apply Forall_forall. intros b Hb.
    apply elem_of_replicate in Hb as [-> _]. vm_compute. reflexivity.
  - vm_compute. intros H. discriminate H.
Defined.

Lemma folder_result_by_label_witness :
  ∃ result tr',
    Sample.detect ["repo"] (Directory Sample.entries) [] = (Ret result, tr')
    ∧ ∀ label,
        result !! label
        = if bool_decide
               (label ∈ labels Sample.guess_lexer_for_filename Sample.get_lexer_for_filename
                         (rglob ["repo"] (Directory Sample.entries)))
          then Some (Float (percent
                 (occurrences label
                    (labels Sample.guess_lexer_for_filename Sample.get_lexer_for_filename
                       (rglob ["repo"] (Directory Sample.entries))))
                 (Z.of_nat (length
                    (labels Sample.guess_lexer_for_filename Sample.get_lexer_for_filename
                       (rglob ["repo"] (Directory Sample.entries)))))))
          else None.
Proof.
  apply (folder_result_by_label
           Sample.guess_lexer_for_filename Sample.get_lexer_for_filename
           ["repo"] Sample.entries []).
  vm_compute. intros H. discriminate H.
Defined.

Lemma walk_order_does_not_matter_witness :
  (for_each Sample.visit
     [(["repo"; "main.py"], Regular (Bytes (Sample.ascii_bytes "print(1)")));
      (["repo"; "logo.png"], Regular (Bytes Sample.png_magic))] (mk_locals ∅ 0) []).1
  = (for_each Sample.visit
       [(["repo"; "logo.png"], Regular (Bytes Sample.png_magic));
        (["repo"; "main.py"], Regular (Bytes (Sample.ascii_bytes "print(1)")))]
       (mk_locals ∅ 0) []).1
  ∧ ((for_each Sample.visit
        [(["repo"; "main.py"], Regular (Bytes (Sample.ascii_bytes "print(1)")));
         (["repo"; "logo.png"], Regular (Bytes Sample.png_magic))] (mk_locals ∅ 0)
      ≫= breakdown) []).1
    = ((for_each Sample.visit
          [(["repo"; "logo.png"], Regular (Bytes Sample.png_magic));
           (["repo"; "main.py"], Regular (Bytes (Sample.ascii_bytes "print(1)")))]
          (mk_locals ∅ 0)
        ≫= breakdown) []).1.
Proof.
  apply (walk_order_does_not_matter
           Sample.guess_lexer_for_filename Sample.get_lexer_for_filename
           [(["repo"; "main.py"], Regular (Bytes (Sample.ascii_bytes "print(1)")));
            (["repo"; "logo.png"], Regular (Bytes Sample.png_magic))]
           [(["repo"; "logo.png"], Regular (Bytes Sample.png_magic));
            (["repo"; "main.py"], Regular (Bytes (Sample.ascii_bytes "print(1)")))]
           (mk_locals ∅ 0) [] []).
  apply perm_swap.
Defined.

Lemma whole_share_is_100_witness : (percent 7 7 == 100)%Q.
Proof. apply (whole_share_is_100 7). lia. Defined.

Lemma percent_is_a_tenth_within_0_100_witness :
  (∃ k, 0 ≤ k ≤ 1000 ∧ percent 1 3 = Float.RN (inject_Z k / 10))
  ∧ (0 <= percent 1 3 <= 100)%Q.
Proof. apply (percent_is_a_tenth_within_0_100 1 3). lia. Defined.

Lemma printed_percentage_is_the_rounded_one_witness :
  ∃ k digits,
    0 ≤ k ≤ 1000
    ∧ percent 1 3 = Float.RN (inject_Z k / 10)
    ∧ digits = pretty (k `div` 10) +:+ "." +:+ pretty (k `mod` 10)
    ∧ breakdown_line ("Python", Float (percent 1 3))
      = (spaces (5 - String.length digits) +:+ digits) +:+ "% | " +:+ "Python".
Proof. apply (printed_percentage_is_the_rounded_one "Python" 1 3). lia. Defined.

(** The line of a third. *)
Example breakdown_line_of_a_third :
  breakdown_line ("Python", Float (percent 1 3)) = " 33.3% | Python".
Proof. vm_compute. reflexivity. Qed.

Lemma linguist_result_takes_precedence_witness :
  detect_with_linguist nat Sample.json_loads_lists ["repo"] (Completed "[1]") []
  = (Ret (Some 1%nat), [] ++ [EvRun (linguist_argv ["repo"])])
  ∧ main_menu_detect Sample.guess_lexer_for_filename Sample.get_lexer_for_filename
      nat Sample.nonempty Sample.json_loads_lists ["repo"] Sample.project
      (Completed "[1]") []
    = (Ret (FromLinguist nat (Some 1%nat)), [] ++ [EvRun (linguist_argv ["repo"])]).
Proof.
  apply (linguist_result_takes_precedence
           Sample.guess_lexer_for_filename Sample.get_lexer_for_filename
           nat Sample.nonempty Sample.json_loads_lists
           ["repo"] Sample.project "[1]" 1%nat []).
  - vm_compute. reflexivity.
  - vm_compute. reflexivity.
Defined.

Lemma empty_linguist_result_falls_back_witness :
  ∃ result tr',
    Sample.detect ["repo"] Sample.project ([] ++ [EvRun (linguist_argv ["repo"])])
    = (Ret result, tr')
    ∧ main_menu_detect Sample.guess_lexer_for_filename Sample.get_lexer_for_filename
        nat Sample.nonempty Sample.json_loads_lists ["repo"] Sample.project
        (Completed "[]") []
      = (Ret (FromPygments nat result), tr').
Proof.
  apply (empty_linguist_result_falls_back
           Sample.guess_lexer_for_filename Sample.get_lexer_for_filename
           nat Sample.nonempty Sample.json_loads_lists
           ["repo"] Sample.project "[]" 0%nat []).
  - vm_compute. reflexivity.
  - vm_compute. reflexivity.
Defined.

Lemma linguist_failure_notices_witness :
  (isinstance Sample.timed_out FileNotFoundError = true →
   detect_with_linguist unit Sample.json_loads ["repo"] (RunRaises Sample.timed_out) []
   = (Ret None,
      [] ++ [EvRun (linguist_argv ["repo"]);
             EvPrint "ℹ️ github-linguist not found. Using fallback methods..."]))
  ∧ (isinstance Sample.timed_out FileNotFoundError = false →
     detect_with_linguist unit Sample.json_loads ["repo"] (RunRaises Sample.timed_out) []
     = (Ret None,
        [] ++ [EvRun (linguist_argv ["repo"]);
               EvPrint ("⚠️ Linguist error: " +:+ exn_str Sample.timed_out);
               EvPrint (newline +:+ "❌ git not found, Using fallback methods...")])).
Proof.
  apply (linguist_failure_notices unit Sample.json_loads ["repo"]
           (RunRaises Sample.timed_out) Sample.timed_out []).
  left. reflexivity.
Defined.

Lemma empty_folder_displays_no_results_witness :
  ∃ result,
    Sample.detect ["repo"] (Directory [("src", Directory []); ("docs", Directory [])]) []
    = (Ret result, [])
    ∧ display_results (map_to_list result) []
      = (Ret (), [] ++ [EvPrint "❌ No results could be generated"]).
Proof.
  apply (empty_folder_displays_no_results
           Sample.guess_lexer_for_filename Sample.get_lexer_for_filename
           ["repo"] [("src", Directory []); ("docs", Directory [])] []).
  vm_compute. reflexivity.
Defined.

Lemma uniform_folder_displays_as_single_file_witness :
  ∃ x tr',
    Sample.detect ["repo"]
      (Directory [("a.py", Regular (Bytes (Sample.ascii_bytes "print(1)")));
                  ("b.py", Regular (Bytes (Sample.ascii_bytes "print(2)")))]) []
    = (Ret {[ "Python" := Float x ]}, tr')
    ∧ (x == 100)%Q
    ∧ display_results (map_to_list ({[ "Python" := Float x ]} : gmap string number)) tr'
      = (Ret (), tr' ++ [EvPrint (newline +:+ "🔍 Language: " +:+ "Python")]).
Proof.
  apply (uniform_folder_displays_as_single_file
           Sample.guess_lexer_for_filename Sample.get_lexer_for_filename
           ["repo"]
           [("a.py", Regular (Bytes (Sample.ascii_bytes "print(1)")));
            ("b.py", Regular (Bytes (Sample.ascii_bytes "print(2)")))]
           "Python" []).
  - vm_compute. intros H. discriminate H.
  - vm_compute. repeat constructor.
Defined.

Lemma breakdown_lines_are_sorted_witness :
  ∃ lines,
    lines ≡ₚ [("Python", Float (percent 1 4)); ("Binary", Float (percent 2 4));
              ("Error", Float (percent 1 4))]
    ∧ Sorted at_least lines
    ∧ (Forall (λ item, beyond_floats item.2 = false)
         [("Python", Float (percent 1 4)); ("Binary", Float (percent 2 4));
          ("Error", Float (percent 1 4))] →
       display_results [("Python", Float (percent 1 4)); ("Binary", Float (percent 2 4));
                        ("Error", Float (percent 1 4))] []
       = (Ret (), [] ++ EvPrint (newline +:+ "📊 Language Breakdown:")
                     :: (EvPrint ∘ breakdown_line <$> lines)))
    ∧ (∀ before item after,
         lines = before ++ item :: after →
         Forall (λ item, beyond_floats item.2 = false) before →
         beyond_floats item.2 = true →
         display_results [("Python", Float (percent 1 4)); ("Binary", Float (percent 2 4));
                          ("Error", Float (percent 1 4))] []
         = (Raise (mk_exn OverflowError "int too large to convert to float"),
            [] ++ EvPrint (newline +:+ "📊 Language Breakdown:")
               :: (EvPrint ∘ breakdown_line <$> before))).
Proof.
  apply (breakdown_lines_are_sorted
           [("Python", Float (percent 1 4)); ("Binary", Float (percent 2 4));
            ("Error", Float (percent 1 4))] []).
  cbn. lia.
Defined.

(** The breakdown of the sample folder, and one whose first value has no
    float: [10^400] stops the display after the heading. *)
Example sample_display :
  display_results [("Python", Float (percent 1 4)); ("Binary", Float (percent 2 4));
                   ("Error", Float (percent 1 4))] []
  = (Ret (), [EvPrint (newline +:+ "📊 Language Breakdown:");
              EvPrint " 50.0% | Binary"; EvPrint " 25.0% | Python";
              EvPrint " 25.0% | Error"]).
Proof. vm_compute. reflexivity. Qed.

Example display_overflow :
  display_results [("Python", Int (10 ^ 400)); ("Binary", Float (percent 2 4))] []
  = (Raise (mk_exn OverflowError "int too large to convert to float"),
     [EvPrint (newline +:+ "📊 Language Breakdown:")]).
Proof. vm_compute. reflexivity. Qed.

(** The largest int with a float, and the first one without. *)
Example last_int_within_floats :
  beyond_floats (Int (2 ^ 1024 - 2 ^ 970 - 1)) = false
  ∧ beyond_floats (Int (2 ^ 1024 - 2 ^ 970)) = true.
Proof. split; vm_compute; reflexivity. Qed.

Lemma failed_commands_do_not_stop_the_installation_witness :
  ∃ evs,
    install_dependencies "/usr/bin/python3" Sample.only_pip_works []
    = (Ret (), [] ++ evs)
    ∧ commands_run evs = commands "/usr/bin/python3".
Proof.
  apply (failed_commands_do_not_stop_the_installation
           "/usr/bin/python3" Sample.only_pip_works []).
  intros cmd Hin. cbn in Hin.
  repeat (apply elem_of_cons in Hin as [->|Hin]; [reflexivity|]).
  by apply elem_of_nil in Hin.
Defined.

Lemma success_message_tells_about_pip_only_witness :
  ∃ r evs,
    install_dependencies "/usr/bin/python3" Sample.only_pip_works [] = (r, [] ++ evs)
    ∧ (EvPrint success_message ∈ evs
       ↔ ∃ stdout, Sample.only_pip_works (pip_argv "/usr/bin/python3") = Completed stdout).
Proof.
  apply (success_message_tells_about_pip_only
           "/usr/bin/python3" Sample.only_pip_works []).
  intros cmd Hin. cbn in Hin.
  repeat (apply elem_of_cons in Hin as [->|Hin]; [reflexivity|]).
  by apply elem_of_nil in Hin.
Defined.

Lemma other_exceptions_stop_the_installation_witness :
  ∃ evs,
    install_dependencies "/usr/bin/python3" Sample.no_sudo []
    = (Raise (mk_exn FileNotFoundError "[Errno 2] No such file or directory: 'sudo'"),
       [] ++ evs)
    ∧ commands_run evs = take 1 (commands "/usr/bin/python3").
Proof.
  apply (other_exceptions_stop_the_installation
           "/usr/bin/python3" Sample.no_sudo 0 ["sudo"; "apt-get"; "update"]
           (mk_exn FileNotFoundError "[Errno 2] No such file or directory: 'sudo'") []).
  - reflexivity.
  - reflexivity.
  - vm_compute. reflexivity.
  - intros cmd' Hin. cbn in Hin. by apply elem_of_nil in Hin.
Defined.
